(** * prot_compl.py: protein -> complexes inversion of the CORUM table

    Shallow embedding of [process_corum_data] (src/prot_compl.py) and the
    properties of its three stages: the "Human" filter and projection, the
    intermediate tab-separated file, and the inverted protein index.

    Conventions.
    - A Python [str] is a [string]; every [ascii] stands for one code point
      below 256.  Comparison of strings is by code point, as in Python.
    - pandas is a library of the program, not part of it.  The parser
      [read_csv] is a parameter of the development; the frame operations the
      program calls ([df[col]], [== 'Human'], boolean indexing, column
      selection, [to_csv]) are modelled with their documented defaults.
    - Files live in a finite map from paths to text; the state of the file
      system and the exception raised, if any, are threaded explicitly.  What
      the platform decides (which paths refuse to be written and with which
      error, how the locale's encoding decodes what was written as UTF-8) is
      part of that state.  A path stands for the file it names: two paths
      are the same file exactly when they are the same string.
    - Lines end with LF, as on the systems where [os.linesep] is LF; the
      CSV writer is the one of CPython 3.11. *)

From Stdlib Require Import Ascii String.
From stdpp Require Import gmap strings list sorting pretty.

Local Open Scope string_scope.

(** ** Characters the program and its libraries single out *)

Definition TAB : ascii := "009"%char.
Definition LF : ascii := "010"%char.
Definition CR : ascii := "013"%char.
Definition DQUOTE : ascii := "034"%char.
Definition SEMICOLON : ascii := ";"%char.

(** [str.isspace] for one character, restricted to code points below 256:
    TAB, LF, VT, FF, CR, the separators FS, GS, RS, US, the space, NEL and
    the no-break space. *)
Definition py_isspace (c : ascii) : bool :=
  match c with
  | "009" | "010" | "011" | "012" | "013"
  | "028" | "029" | "030" | "031" | " " | "133" | "160" => true
  | _ => false
  end%char.

Module Str.

(** [any(p(c) for c in s)] *)
Fixpoint any (p : ascii → bool) (s : string) : bool :=
  match s with
  | "" => false
  | String c s' => p c || any p s'
  end.

(** [sep.join(l)] *)
Fixpoint join (sep : string) (l : list string) : string :=
  match l with
  | [] => ""
  | [x] => x
  | x :: l' => x +:+ sep +:+ join sep l'
  end.

(** [''.join(l)] *)
Fixpoint concat (l : list string) : string :=
  match l with
  | [] => ""
  | x :: l' => x +:+ concat l'
  end.

(** [s.split(sep)] for a one-character separator: never the empty list. *)
Fixpoint split (sep : ascii) (s : string) : list string :=
  match s with
  | "" => [""]
  | String c s' =>
      if decide (c = sep) then "" :: split sep s'
      else match split sep s' with
           | [] => [String c ""]
           | h :: t => String c h :: t
           end
  end.

(** [s.lstrip()] *)
Fixpoint lstrip (s : string) : string :=
  match s with
  | "" => ""
  | String c s' => if py_isspace c then lstrip s' else s
  end.

(** [s.rstrip()] *)
Fixpoint rstrip (s : string) : string :=
  match s with
  | "" => ""
  | String c s' =>
      match rstrip s' with
      | "" => if py_isspace c then "" else String c ""
      | r => String c r
      end
  end.

(** [s.strip()] *)
Definition strip (s : string) : string := rstrip (lstrip s).

(** [needle in s] *)
Fixpoint contains (needle s : string) : bool :=
  String.prefix needle s ||
  match s with
  | "" => false
  | String _ s' => contains needle s'
  end.

End Str.

(** ** Text files as Python reads them *)

(** Universal newlines on input: CR LF and a lone CR both read as LF. *)
Fixpoint translate_newlines (s : string) : string :=
  match s with
  | "" => ""
  | String c s' =>
      if decide (c = CR) then
        match s' with
        | String c' s'' =>
            if decide (c' = LF) then translate_newlines s'
            else String LF (translate_newlines s')
        | "" => String LF ""
        end
      else String c (translate_newlines s')
  end.

(** The lines a file object yields: each keeps its terminating LF, the last
    one may lack it. *)
Fixpoint split_lines (s : string) : list string :=
  match s with
  | "" => []
  | String c s' =>
      if decide (c = LF) then String LF "" :: split_lines s'
      else match split_lines s' with
           | [] => [String c ""]
           | l :: ls => String c l :: ls
           end
  end.

Definition readlines (content : string) : list string :=
  split_lines (translate_newlines content).

(** ** Exceptions *)

(** The exception classes the run can meet, with the part of Python's class
    hierarchy above them.  [ParserError] is [pandas.errors.ParserError], a
    subclass of [ValueError]; [KeyboardInterrupt] stands for the classes that
    derive from [BaseException] but not from [Exception]. *)
Inductive exn_class :=
  | BaseException | KeyboardInterrupt | Exception
  | OSError | FileNotFoundError | PermissionError
  | LookupError | KeyError
  | ValueError | ParserError | UnicodeDecodeError
  | StopIteration.

Global Instance exn_class_eq_dec : EqDecision exn_class.
Proof. solve_decision. Defined.

Definition bases (c : exn_class) : list exn_class :=
  match c with
  | BaseException => []
  | KeyboardInterrupt => [BaseException]
  | Exception => [BaseException]
  | OSError => [Exception; BaseException]
  | FileNotFoundError => [OSError; Exception; BaseException]
  | PermissionError => [OSError; Exception; BaseException]
  | LookupError => [Exception; BaseException]
  | KeyError => [LookupError; Exception; BaseException]
  | ValueError => [Exception; BaseException]
  | ParserError => [ValueError; Exception; BaseException]
  | UnicodeDecodeError => [ValueError; Exception; BaseException]
  | StopIteration => [Exception; BaseException]
  end.

(** [issubclass(c, target)] *)
Definition issubclass (c target : exn_class) : bool :=
  bool_decide (target ∈ c :: bases c).

(** An exception value: its class and the text [str(e)] gives. *)
Record exn := Exn { exn_cls : exn_class; exn_str : string }.

Definition result (A : Type) : Type := exn + A.

(** ** The file system and the effects of the run *)

(** The errors of the operating system the run can meet when it opens a path
    for writing: [PermissionError], [FileNotFoundError] (a directory of the
    path is missing) or another [OSError], each with its text. *)
Inductive os_error_class := IsPermissionError | IsFileNotFoundError | IsOSError.

Global Instance os_error_class_eq_dec : EqDecision os_error_class.
Proof. solve_decision. Defined.

Record os_error := OsError { os_class : os_error_class; os_text : string }.

Definition raise_os (e : os_error) : exn :=
  Exn match os_class e with
      | IsPermissionError => PermissionError
      | IsFileNotFoundError => FileNotFoundError
      | IsOSError => OSError
      end
      (os_text e).

(** What reading a file in text mode with the locale's encoding gives for a
    file that was written as UTF-8: the text, or the lines the file object
    delivered before a [UnicodeDecodeError] with its text. *)
Inductive decoding :=
  | Decoded (text : string)
  | Undecodable (delivered : list string) (message : string).

(** Regular files by path, each with the text it holds; the paths that
    cannot be opened for writing, with the error [open(path, 'w')] raises
    for them and the error [to_csv] raises for them; and how the locale's
    encoding decodes a text written as UTF-8 that is not plain ASCII.  What
    line 35 has decoded with the locale's encoding, lines 50-57 encode with
    it again, so the writes to the final file do not fail. *)
Record filesystem := Filesystem {
  files : gmap string string;
  unwritable : gset string;
  open_error : string → os_error;
  to_csv_error : string → os_error;
  locale_decode : string → decoding
}.

(** A computation reads and updates the file system and either returns a
    value or raises; what was written before a raise stays written. *)
Definition io (A : Type) : Type := filesystem → result A * filesystem.

Global Instance io_ret : MRet io := λ A (x : A) fs, (inr x, fs).
Global Instance io_bind : MBind io := λ A B (k : A → io B) (m : io A) fs,
  match m fs with
  | (inl e, fs') => (inl e, fs')
  | (inr x, fs') => k x fs'
  end.

Definition lift {A} (r : result A) : io A := λ fs, (r, fs).

Definition errno_text (code what path : string) : string :=
  "[Errno " +:+ code +:+ "] " +:+ what +:+ ": '" +:+ path +:+ "'".

Definition no_such_file (path : string) : exn :=
  Exn FileNotFoundError (errno_text "2" "No such file or directory" path).

(** [PermissionError] and [FileNotFoundError] as [open] words them. *)
Definition denied (path : string) : os_error :=
  OsError IsPermissionError (errno_text "13" "Permission denied" path).

Definition no_directory (path : string) : os_error :=
  OsError IsFileNotFoundError (errno_text "2" "No such file or directory" path).

(** The contents of a file, as [read_csv] gets at its input. *)
Definition read_file (path : string) : io string := λ fs,
  match files fs !! path with
  | Some text => (inr text, fs)
  | None => (inl (no_such_file path), fs)
  end.

(** A text of code points below 128 only.  The encodings Python takes from
    the locale agree with UTF-8 on such a text. *)
Definition is_ascii (s : string) : bool :=
  negb (Str.any (λ c, (128 <=? nat_of_ascii c)%nat) s).

(** What [open(path, 'r')] makes of a file that holds [text] as UTF-8. *)
Definition decode_text (fs : filesystem) (text : string) : decoding :=
  if is_ascii text then Decoded text else locale_decode fs text.

(** [open(path, 'r')] and the lines the file object yields, in the order the
    loop of line 37 meets them, with the [UnicodeDecodeError] that ends the
    iteration, if one does. *)
Definition open_read (path : string) : io (list string * option exn) := λ fs,
  match files fs !! path with
  | Some text =>
      match decode_text fs text with
      | Decoded text' => (inr (readlines text', None), fs)
      | Undecodable delivered message =>
          (inr (delivered, Some (Exn UnicodeDecodeError message)), fs)
      end
  | None => (inl (no_such_file path), fs)
  end.

(** Writing [text] to [path] and closing, after [open(path, 'w')] succeeded. *)
Definition write_file (path text : string) (fs : filesystem) : filesystem :=
  Filesystem (<[path := text]> (files fs)) (unwritable fs)
             (open_error fs) (to_csv_error fs) (locale_decode fs).

(** [open(path, 'w')] followed by writing [text] and closing. *)
Definition open_write (path text : string) : io unit := λ fs,
  if decide (path ∈ unwritable fs)
  then (inl (raise_os (open_error fs path)), fs)
  else (inr (), write_file path text fs).

(** ** Data frames *)

(** A cell is a value or missing.  A value is kept as the text [to_csv]
    writes for it: the string itself in an object column, the decimal
    rendering in a numeric one. *)
Inductive cell := Val (s : string) | NaN.

Global Instance cell_eq_dec : EqDecision cell.
Proof. solve_decision. Defined.

(** [read_csv] returns frames with distinct column labels and rows as long
    as the header; positions outside a row read as missing. *)
Record DataFrame := Frame {
  columns : list string;
  rows : list (list cell)
}.

Fixpoint index_of (name : string) (l : list string) : option nat :=
  match l with
  | [] => None
  | x :: l' => if decide (x = name) then Some 0 else S <$> index_of name l'
  end.

(** The positions of several labels, when all of them are columns. *)
Fixpoint positions_of (cols names : list string) : option (list nat) :=
  match names with
  | [] => Some []
  | name :: names' =>
      match index_of name cols, positions_of cols names' with
      | Some i, Some positions => Some (i :: positions)
      | _, _ => None
      end
  end.

Definition cell_at (i : nat) (row : list cell) : cell := nth i row NaN.

(** The cell of [row] under the column labelled [name]. *)
Definition field (df : DataFrame) (name : string) (row : list cell) : cell :=
  match index_of name (columns df) with
  | Some i => cell_at i row
  | None => NaN
  end.

(** [str(KeyError(key))] is the [repr] of the key. *)
Definition key_error (key : string) : exn := Exn KeyError ("'" +:+ key +:+ "'").

(** [df[name]]: the column as a sequence of cells. *)
Definition getitem (df : DataFrame) (name : string) : result (list cell) :=
  match index_of name (columns df) with
  | Some i => inr (cell_at i <$> rows df)
  | None => inl (key_error name)
  end.

(** [series == scalar], element by element; a missing cell equals nothing. *)
Definition eq_scalar (scalar : string) (series : list cell) : list bool :=
  (λ c, match c with Val s => bool_decide (s = scalar) | NaN => false end) <$> series.

(** [rows[mask]]: the rows whose mask entry is [True], in order. *)
Fixpoint boolean_index {A} (l : list A) (mask : list bool) : list A :=
  match l, mask with
  | x :: l', b :: mask' =>
      if b then x :: boolean_index l' mask' else boolean_index l' mask'
  | _, _ => []
  end.

(** What [to_csv] writes for a cell; [na_rep] is the empty string. *)
Definition text_of_cell (c : cell) : string :=
  match c with Val s => s | NaN => "" end.

(** QUOTE_MINIMAL, the default of [to_csv]: the characters that force a field
    into quotes are the delimiter, here TAB, the quote character and the
    characters of the line terminator, here LF alone.  A CR does not
    (CPython 3.11). *)
Definition needs_quote (c : ascii) : bool :=
  bool_decide (c = TAB ∨ c = DQUOTE ∨ c = LF).

Fixpoint double_quotes (s : string) : string :=
  match s with
  | "" => ""
  | String c s' =>
      if decide (c = DQUOTE) then String DQUOTE (String DQUOTE (double_quotes s'))
      else String c (double_quotes s')
  end.

Definition csv_field (s : string) : string :=
  if Str.any needs_quote s
  then String DQUOTE (double_quotes s) +:+ String DQUOTE ""
  else s.

(** One record as [csv.writer] emits it; a lone empty field is quoted. *)
Definition csv_record (fields : list string) : string :=
  match fields with
  | [""] => String DQUOTE (String DQUOTE (String LF ""))
  | _ => Str.join (String TAB "") (csv_field <$> fields) +:+ String LF ""
  end.

(** The text [df.to_csv(path, sep='\t', index=False, header=True)] writes. *)
Definition csv_text (df : DataFrame) : string :=
  csv_record (columns df) +:+
  Str.concat ((λ row, csv_record (text_of_cell <$> row)) <$> rows df).

Definition to_csv (df : DataFrame) (path : string) : io unit := λ fs,
  if decide (path ∈ unwritable fs)
  then (inl (raise_os (to_csv_error fs path)), fs)
  else (inr (), write_file path (csv_text df) fs).

(** ** Stage 3: the inverted index (lines 34-57) *)

(** [complexes_dict]: protein id to the complex ids collected so far. *)
Abbreviation index := (gmap string (list string)).

(** The [ValueError] of [a, _, b = fields] when [fields] has not three items,
    with the wording of CPython 3.5 to 3.13. *)
Definition unpack_error (n : nat) : exn :=
  Exn ValueError
    (if decide (n < 3)
     then "not enough values to unpack (expected 3, got " +:+ pretty n +:+ ")"
     else "too many values to unpack (expected 3)").

(** Line 39: [complex_id, _, subunits_uniprot_id = line.strip().split('\t')] *)
Definition parse_line (line : string) : result (string * string) :=
  match Str.split TAB (Str.strip line) with
  | [complex_id; _; subunits_uniprot_id] => inr (complex_id, subunits_uniprot_id)
  | fields => inl (unpack_error (length fields))
  end.

(** Lines 41-43: the subunits that pass [if subunit], in order. *)
Definition subunits_of (subunits_uniprot_id : string) : list string :=
  filter (λ subunit, subunit ≠ "")
         (Str.strip <$> Str.split SEMICOLON subunits_uniprot_id).

(** Lines 45-47: create the entry on first sight, then append. *)
Definition record_subunit (complex_id : string) (d : index) (subunit : string) : index :=
  let d' := match d !! subunit with
            | None => <[subunit := []]> d
            | Some _ => d
            end in
  <[subunit := (default [] (d' !! subunit) ++ [complex_id])%list]> d'.

(** The body of the outer loop for one line. *)
Definition scan_line (d : index) (line : string) : result index :=
  match parse_line line with
  | inl e => inl e
  | inr (complex_id, subunits) =>
      inr (foldl (record_subunit complex_id) d (subunits_of subunits))
  end.

(** The outer loop; the first malformed line ends it. *)
Fixpoint scan (d : index) (lines : list string) : result index :=
  match lines with
  | [] => inr d
  | line :: lines' =>
      match scan_line d line with
      | inl e => inl e
      | inr d' => scan d' lines'
      end
  end.

(** Lines 34-47 on the lines of the intermediate file: [next] skips the
    header and raises [StopIteration] on a file without lines. *)
Definition invert (lines : list string) : result index :=
  match lines with
  | [] => inl (Exn StopIteration "")
  | _header :: data => scan ∅ data
  end.

(** The same when the iteration over the file may end in an exception: the
    lines delivered are scanned first, so a malformed one among them raises
    before the file object does. *)
Definition invert_file (lines : list string) (pending : option exn) : result index :=
  match pending with
  | None => invert lines
  | Some e =>
      match lines with
      | [] => inl e
      | _header :: data =>
          match scan ∅ data with
          | inl e' => inl e'
          | inr _ => inl e
          end
      end
  end.

(** [sorted(complexes_dict.keys())].  The keys of a dict are distinct and the
    order on strings is total, so the sorted sequence does not depend on the
    order in which the keys are handed to the sort. *)
Definition sorted_subunits (d : index) : list string :=
  merge_sort String.le (fst <$> map_to_list d).

Definition complexes_header : string :=
  "subunits_uniprot_id" +:+ String TAB "complex_ids" +:+ String LF "".

(** Lines 56-57: the row written for one protein. *)
Definition complexes_row (d : index) (subunit : string) : string :=
  subunit +:+ String TAB (Str.join "|" (d !!! subunit)) +:+ String LF "".

(** Everything lines 50-57 write. *)
Definition complexes_text (d : index) : string :=
  complexes_header +:+ Str.concat (complexes_row d <$> sorted_subunits d).

(** ** The run *)

Definition sma_columns : list string :=
  ["complex_id"; "complex_name"; "subunits_uniprot_id"].

(** What the call returned to its caller: the lines it printed, or the
    exception that left it. *)
Inductive outcome :=
  | Returned (printed : list string)
  | Propagated (e : exn).

Section run.

(** pandas' parser, from the text of the input file to a frame or the
    exception it raises. *)
Variable read_csv : string → result DataFrame.

(** Text of the [KeyError] pandas raises for labels that are not columns;
    its wording differs between pandas versions. *)
Variable not_in_index : list string → string.

(** [df[names]]: the listed columns, in the listed order. *)
Definition getitem_list (df : DataFrame) (names : list string) : result DataFrame :=
  match positions_of (columns df) names with
  | Some positions =>
      inr (Frame names ((λ row : list cell, (λ i, cell_at i row) <$> positions) <$> rows df))
  | None =>
      inl (Exn KeyError
             (not_in_index (filter (λ name, index_of name (columns df) = None) names)))
  end.

(** Lines 27 and 30: the rows whose organism is "Human", then the three
    columns of the intermediate table. *)
Definition select_human (df : DataFrame) : result DataFrame :=
  match getitem df "organism" with
  | inl e => inl e
  | inr organism =>
      let human_df :=
        Frame (columns df) (boolean_index (rows df) (eq_scalar "Human" organism)) in
      getitem_list human_df sma_columns
  end.

(** Lines 26-57, the body of the [try]. *)
Definition process_body
    (input_file output_sma_file output_complexes_file : string) : io unit :=
  text ← read_file input_file;
  df ← lift (read_csv text);
  sma_df ← lift (select_human df);
  to_csv sma_df output_sma_file;;
  sma_file ← open_read output_sma_file;
  complexes_dict ← lift (invert_file sma_file.1 sma_file.2);
  open_write output_complexes_file (complexes_text complexes_dict).

(** Lines 59-64: the first clause whose class matches handles the
    exception; one that matches none leaves the function. *)
Definition handle (input_file : string) (e : exn) : outcome :=
  if issubclass (exn_cls e) FileNotFoundError then
    Returned ["Error: Input file '" +:+ input_file +:+ "' not found."]
  else if issubclass (exn_cls e) ParserError then
    Returned ["Error: Could not parse input file '" +:+ input_file +:+ "'. Check file format."]
  else if issubclass (exn_cls e) Exception then
    Returned ["An unexpected error occurred: " +:+ exn_str e]
  else Propagated e.

Definition process_corum_data
    (input_file output_sma_file output_complexes_file : string)
    (fs : filesystem) : outcome * filesystem :=
  match process_body input_file output_sma_file output_complexes_file fs with
  | (inr _, fs') => (Returned [], fs')
  | (inl e, fs') => (handle input_file e, fs')
  end.

End run.

(** * Vocabulary of the properties *)

(** The predicate [x == c] on characters. *)
Definition is_char (c : ascii) : ascii → bool := λ x, bool_decide (x = c).

Definition required_columns : list string := "organism" :: sma_columns.

(** The header of the input names the four columns the program uses. *)
Definition has_required_columns (df : DataFrame) : Prop :=
  Forall (λ name, name ∈ columns df) required_columns.

(** The three cells of a row that go to the intermediate table. *)
Definition projection (df : DataFrame) (row : list cell) : list cell :=
  (λ name, field df name row) <$> sma_columns.

(** The fields of a record joined by TAB and ended by LF, nothing added. *)
Definition raw_record (fields : list string) : string :=
  Str.join (String TAB "") fields +:+ String LF "".

(** The characters that end a field or a line of the intermediate file, or
    open a quoted field. *)
Definition special (c : ascii) : bool :=
  bool_decide (c = TAB ∨ c = DQUOTE ∨ c = LF ∨ c = CR).

(** A text that is written as it is and read back in one piece: no TAB,
    quote, LF or CR in it. *)
Definition plain (s : string) : Prop := Str.any special s = false.

Definition sma_header : string :=
  "complex_id" +:+ String TAB "complex_name" +:+ String TAB "subunits_uniprot_id"
  +:+ String LF "".

(** The state of the file system once [to_csv] has returned. *)
Definition after_stage2 (sma_df : DataFrame) (output_sma_file : string)
    (fs : filesystem) : filesystem :=
  write_file output_sma_file (csv_text sma_df) fs.

(** The intermediate file is read back as it was written: the encoding of
    the locale decodes the UTF-8 of [to_csv] to the text that was written.
    This is so for every ASCII text, and for every text when the encoding of
    the locale is UTF-8. *)
Definition reads_back (fs : filesystem) (text : string) : Prop :=
  decode_text fs text = Decoded text.

(** What lines 34-47 make of an intermediate file that holds [text]. *)
Definition rescan (fs : filesystem) (text : string) : result index :=
  match decode_text fs text with
  | Decoded text' => invert (readlines text')
  | Undecodable delivered message =>
      invert_file delivered (Some (Exn UnicodeDecodeError message))
  end.

(** All lines parsed, or the exception of the first line that does not. *)
Fixpoint parse_lines (lines : list string) : result (list (string * string)) :=
  match lines with
  | [] => inr []
  | line :: lines' =>
      match parse_line line, parse_lines lines' with
      | inl e, _ => inl e
      | inr _, inl e => inl e
      | inr r, inr rs => inr (r :: rs)
      end
  end.

(** The index built from parsed lines, without the parsing. *)
Definition build (d : index) (recs : list (string * string)) : index :=
  foldl (λ d r, foldl (record_subunit r.1) d (subunits_of r.2)) d recs.

(** The complex ids one record posts for [subunit]: its complex id once for
    every occurrence of [subunit] among its trimmed, non-empty tokens. *)
Definition hits (subunit : string) (r : string * string) : list string :=
  (λ _, r.1) <$> filter (λ x, x = subunit) (subunits_of r.2).

(** The complex ids all records post for [subunit], top to bottom. *)
Definition postings (recs : list (string * string)) (subunit : string) : list string :=
  recs ≫= hits subunit.

(** An entry extended by further postings; no postings leave it as it is. *)
Definition extend (entry : option (list string)) (more : list string) : option (list string) :=
  match more with
  | [] => entry
  | _ => Some (default [] entry ++ more)%list
  end.


(** Python's [a < b] on [str]: lexicographic by code point. *)
Definition str_lt (a b : string) : Prop := String.ltb a b = true.

(** A text without TAB, LF and CR: it fits in one field of one line. *)
Definition tidy (s : string) : Prop :=
  Str.any (λ c, is_char TAB c || is_char LF c || is_char CR c) s = false.

(** Every key and every complex id of the index fits in one field. *)
Definition index_tidy (d : index) : Prop :=
  ∀ k ids, d !! k = Some ids → tidy k ∧ Forall tidy ids.

(** Reading a tab-separated file back: the lines after the header, and the
    first field of a line. *)
Definition data_lines (text : string) : list string := tail (readlines text).

Definition key_of (line : string) : string := hd "" (Str.split TAB line).

(** The rows stage 1 retains, and the texts of their three fields. *)
Definition retained (df : DataFrame) : list (list cell) :=
  filter (λ row, field df "organism" row = Val "Human") (rows df).

Definition complex_id_of (df : DataFrame) (row : list cell) : string :=
  text_of_cell (field df "complex_id" row).

Definition complex_name_of (df : DataFrame) (row : list cell) : string :=
  text_of_cell (field df "complex_name" row).

Definition subunits_field_of (df : DataFrame) (row : list cell) : string :=
  text_of_cell (field df "subunits_uniprot_id" row).

Definition record_of (df : DataFrame) (row : list cell) : string * string :=
  (complex_id_of df row, subunits_field_of df row).

Global Instance plain_dec s : Decision (plain s).
Proof. unfold plain. apply _. Defined.

Global Instance decoding_eq_dec : EqDecision decoding.
Proof. solve_decision. Defined.

Global Instance reads_back_dec fs text : Decision (reads_back fs text).
Proof. unfold reads_back. apply _. Defined.

(** How often [subunit] occurs among the tokens of the records whose complex
    id is [complex_id]. *)
Definition occurrences (recs : list (string * string)) (complex_id subunit : string) : nat :=
  length (filter (λ x, x = subunit)
            (filter (λ r, r.1 = complex_id) recs ≫= λ r, subunits_of r.2)).

(** How often [subunit] occurs among the tokens of all records. *)
Definition total_occurrences (recs : list (string * string)) (subunit : string) : nat :=
  length (filter (λ x, x = subunit) (recs ≫= λ r, subunits_of r.2)).

(** A row of the final file without its line end. *)
Definition row_body (d : index) (subunit : string) : string :=
  subunit +:+ String TAB (Str.join "|" (d !!! subunit)).

(** The state of the file system once the final file is written. *)
Definition after_stage3 (d : index) (output_complexes_file : string)
    (fs : filesystem) : filesystem :=
  write_file output_complexes_file (complexes_text d) fs.

(** The three diagnostics of lines 59-64. *)
Definition not_found_message (input_file : string) : string :=
  "Error: Input file '" +:+ input_file +:+ "' not found.".

Definition parse_message (input_file : string) : string :=
  "Error: Could not parse input file '" +:+ input_file +:+ "'. Check file format.".

Definition unexpected_message (text : string) : string :=
  "An unexpected error occurred: " +:+ text.

(** The text of the intermediate file for an input with the four columns. *)
Definition intermediate_text (df : DataFrame) : string :=
  csv_text (Frame sma_columns (projection df <$> retained df)).

(** The row the final file holds for [subunit], from the records. *)
Definition final_row (recs : list (string * string)) (subunit : string) : string :=
  subunit +:+ String TAB (Str.join "|" (postings recs subunit)) +:+ String LF "".

(** The values [complexes_dict] takes on one line: one per pass through the
    body of the inner loop (lines 42-47). *)
Fixpoint states_line (complex_id : string) (d : index) (subunits : list string) : list index :=
  match subunits with
  | [] => []
  | subunit :: subunits' =>
      let d' := record_subunit complex_id d subunit in
      d' :: states_line complex_id d' subunits'
  end.

(** The values [complexes_dict] takes during the scan, in order, up to the
    line that raises, if one does. *)
Fixpoint scan_states (d : index) (lines : list string) : list index :=
  match lines with
  | [] => []
  | line :: lines' =>
      match parse_line line with
      | inl _ => []
      | inr (complex_id, subunits) =>
          let tokens := subunits_of subunits in
          (states_line complex_id d tokens ++
           scan_states (foldl (record_subunit complex_id) d tokens) lines')%list
      end
  end.

(** Soundness of the index with respect to the scanned lines: no empty entry,
    and every complex id under a key is the first of the three fields of a
    stripped line whose third field has the key among its tokens. *)
Definition sound (lines : list string) (d : index) : Prop :=
  ∀ k ids, d !! k = Some ids →
    ids ≠ [] ∧
    ∀ c, c ∈ ids →
      ∃ line name subunits,
        line ∈ lines ∧
        Str.split TAB (Str.strip line) = [c; name; subunits] ∧
        k ∈ subunits_of subunits.

(** The same with the line as it stands in the file: the complex id is the
    first TAB-separated field of the line, and the key is a token of its
    third field. *)
Definition sound_unstripped (lines : list string) (d : index) : Prop :=
  ∀ k ids, d !! k = Some ids →
    ids ≠ [] ∧
    ∀ c, c ∈ ids →
      ∃ line,
        line ∈ lines ∧
        key_of line = c ∧
        k ∈ subunits_of (nth 2 (Str.split TAB line) "").

(** What a call may print: nothing, or one of the three diagnostics. *)
Definition is_diagnostic (input_file : string) (printed : list string) : Prop :=
  printed = [] ∨
  printed = [not_found_message input_file] ∨
  printed = [parse_message input_file] ∨
  ∃ e, printed = [unexpected_message (exn_str e)].

(** ** The input table and the intermediate file, as a reader sees them *)

(** [name] labels the column at position [i] and no column before it. *)
Definition first_position (name : string) (cols : list string) (i : nat) : Prop :=
  cols !! i = Some name ∧ ∀ j, (j < i)%nat → cols !! j ≠ Some name.

(** The cell of a row at a position; a row that ends before it has none. *)
Definition cell_of (row : list cell) (i : nat) : cell := default NaN (row !! i).

(** The text that stands for a cell in a file: the value, nothing for a
    missing one. *)
Definition shown (c : cell) : string :=
  match c with Val s => s | NaN => "" end.

(** A field that can stand in a tab-separated line as it is. *)
Definition verbatim (s : string) : Prop :=
  Str.any (is_char TAB) s = false ∧
  Str.any (is_char DQUOTE) s = false ∧
  Str.any (is_char LF) s = false.

Global Instance verbatim_dec s : Decision (verbatim s).
Proof. unfold verbatim. apply _. Defined.

(** A field between double quotes, each double quote inside it doubled. *)
Definition in_quotes (s : string) : string :=
  String DQUOTE (Str.join (String DQUOTE (String DQUOTE "")) (Str.split DQUOTE s))
  +:+ String DQUOTE "".

(** A field as it stands in the intermediate file. *)
Definition written (s : string) : string :=
  if decide (verbatim s) then s else in_quotes s.

(** Where a reader of a tab-separated file stands: at the start of a record,
    at the start of a field, inside a field without quotes, inside a quoted
    field, or behind a double quote met inside a quoted field. *)
Inductive reading := RecordStart | FieldStart | InField | InQuotes | QuoteSeen.

(** The records that follow, given the records of the rest of the text: the
    first field of the first record is the one being read. *)
Definition push (c : ascii) (records : list (list string)) : list (list string) :=
  match records with
  | (f :: fields) :: records' => (String c f :: fields) :: records'
  | [] :: records' => [String c ""] :: records'
  | [] => [[String c ""]]
  end.

(** The field [f] ends at a TAB, or at an LF and its record with it. *)
Definition field_then (f : string) (records : list (list string)) : list (list string) :=
  match records with
  | fields :: records' => (f :: fields) :: records'
  | [] => [[f; ""]]
  end.

Definition record_then (f : string) (records : list (list string)) : list (list string) :=
  [f] :: records.

(** Reading a text in which TAB ends a field and LF a record, both outside
    quotes only; a field that starts with a double quote runs to the next
    single double quote, two in a row standing for one. *)
Fixpoint read_from (st : reading) (s : string) : list (list string) :=
  match s with
  | "" => match st with RecordStart => [] | _ => [[""]] end
  | String c s' =>
      match st with
      | InQuotes =>
          if decide (c = DQUOTE) then read_from QuoteSeen s'
          else push c (read_from InQuotes s')
      | _ =>
          if decide (c = TAB) then field_then "" (read_from FieldStart s')
          else if decide (c = LF) then record_then "" (read_from RecordStart s')
          else if decide (c = DQUOTE) then
            match st with
            | RecordStart | FieldStart => read_from InQuotes s'
            | QuoteSeen => push c (read_from InQuotes s')
            | _ => push c (read_from InField s')
            end
          else push c (read_from InField s')
      end
  end.

(** The records of a tab-separated file, the header first. *)
Definition read_tsv (content : string) : list (list string) :=
  read_from RecordStart content.

(** ** Sample inputs *)

(** A file system whose refusals are permission errors, under a locale
    whose encoding is UTF-8. *)
Definition posix_fs (contents : gmap string string) (refused : gset string) : filesystem :=
  Filesystem contents refused denied denied Decoded.

(** A file system that holds the download and refuses no path. *)
Definition sample_fs : filesystem :=
  posix_fs {["corum_humanComplexes.txt" := "(the download)"]} ∅.

(** A parser that yields the given frame, whatever the text. *)
Definition parser_of (df : DataFrame) : string → result DataFrame := λ _, inr df.

Definition sample_not_in_index (labels : list string) : string :=
  "[" +:+ Str.join ", " labels +:+ "] not in index".

Definition sample_columns : list string :=
  ["complex_id"; "complex_name"; "organism"; "cell_line"; "subunits_uniprot_id"].

(** The example of the specification, with a second human complex. *)
Definition sample_frame : DataFrame :=
  Frame sample_columns
    [ [Val "CPX-1"; Val "Foo"; Val "Human"; NaN; Val "P1;P2; P1"];
      [Val "CPX-2"; Val "Bar"; Val "Mouse"; Val "x"; Val "P1;P3"];
      [Val "CPX-3"; NaN; Val "Human"; NaN; Val "P0;P2;;"];
      [Val "CPX-4"; Val "Qux"; Val "human"; NaN; Val "P9"] ].

(** Two human complexes that share the protein P1. *)
Definition shared_protein_frame : DataFrame :=
  Frame sample_columns
    [ [Val "CPX-1"; Val "Foo"; Val "Human"; NaN; Val "P1"];
      [Val "CPX-2"; Val "Bar"; Val "Human"; NaN; Val "P1"] ].

(** A human complex without subunits after one with subunits. *)
Definition empty_subunits_frame : DataFrame :=
  Frame sample_columns
    [ [Val "CPX-1"; Val "Foo"; Val "Human"; NaN; Val "P1;P2"];
      [Val "CPX-2"; Val "Bar"; Val "Human"; NaN; NaN] ].

(** A human complex whose subunits field holds semicolons and spaces only,
    after one with subunits. *)
Definition semicolons_only_frame : DataFrame :=
  Frame sample_columns
    [ [Val "CPX-1"; Val "Foo"; Val "Human"; NaN; Val "P1;P2"];
      [Val "CPX-2"; Val "Bar"; Val "Human"; NaN; Val " ; ;"] ].

(** A human complex whose name holds a TAB and whose id is missing. *)
Definition embedded_tab_frame : DataFrame :=
  Frame sample_columns
    [ [NaN; Val ("A" +:+ String TAB "B"); Val "Human"; NaN; Val "P1"] ].

(** A human complex whose id starts with a space. *)
Definition leading_space_frame : DataFrame :=
  Frame sample_columns
    [ [Val " CPX-1"; Val "Foo"; Val "Human"; NaN; Val "P1"] ].

(** A parser that rejects every text as pandas does a ragged table. *)
Definition failing_parser : string → result DataFrame :=
  λ _, inl (Exn ParserError "Error tokenizing data. C error: Expected 4 fields in line 3, saw 5").

Definition sample_run (df : DataFrame) : outcome * filesystem :=
  process_corum_data (parser_of df) sample_not_in_index
    "corum_humanComplexes.txt" "corum_humanComplexes_sma.txt"
    "Complexes_prot_found_in.txt" sample_fs.

(** ** The script (lines 66-72) *)

Definition script_input_file : string := "corum_humanComplexes.txt".
Definition script_output_sma_file : string := "corum_humanComplexes_sma.txt".
Definition script_output_complexes_file : string := "Complexes_prot_found_in.txt".

Definition completion_line : string := "Processing complete. Check output files.".

(** Lines 67-72: the call on the three fixed paths, then the [print] of line
    72, which is reached whenever the call returns. *)
Definition script (read_csv : string → result DataFrame)
    (not_in_index : list string → string) (fs : filesystem) : outcome * filesystem :=
  match process_corum_data read_csv not_in_index
          script_input_file script_output_sma_file script_output_complexes_file fs with
  | (Returned printed, fs') => (Returned (printed ++ [completion_line])%list, fs')
  | (Propagated e, fs') => (Propagated e, fs')
  end.

(** ** Further vocabulary *)

(** What line 43 lets through: a text that is not empty, has no white space at
    either end and holds no semicolon. *)
Definition trimmed_token (t : string) : Prop :=
  t ≠ "" ∧ Str.strip t = t ∧ Str.any (is_char SEMICOLON) t = false.

(** A text that stays on one line and in one field: no TAB, LF or CR; a
    double quote is allowed. *)
Definition one_field (s : string) : Prop :=
  Str.any (is_char TAB) s = false ∧
  Str.any (is_char LF) s = false ∧
  Str.any (is_char CR) s = false.

(** A row that stage 3 reads back as stage 2 wrote it: a complex id and a
    subunits field without TAB, double quote, LF and CR, a complex name
    without TAB, LF and CR, a complex id that is not empty and does not start
    with white space, a subunits field that is not all white space. *)
Definition readable_row (df : DataFrame) (row : list cell) : Prop :=
  plain (complex_id_of df row) ∧ one_field (complex_name_of df row) ∧
  plain (subunits_field_of df row) ∧
  complex_id_of df row ≠ "" ∧ Str.lstrip (complex_id_of df row) = complex_id_of df row ∧
  Str.strip (subunits_field_of df row) ≠ "".

Global Instance one_field_dec s : Decision (one_field s).
Proof. unfold one_field. apply _. Defined.

Global Instance readable_row_dec df row : Decision (readable_row df row).
Proof. unfold readable_row. apply _. Defined.

Global Instance trimmed_token_dec t : Decision (trimmed_token t).
Proof. unfold trimmed_token. apply _. Defined.

(** ** Further sample inputs *)

(** No column is labelled organism. *)
Definition no_organism_frame : DataFrame :=
  Frame ["complex_id"; "complex_name"; "subunits_uniprot_id"]
    [ [Val "CPX-1"; Val "Foo"; Val "P1;P2"] ].

(** The complex name column is missing. *)
Definition no_name_frame : DataFrame :=
  Frame ["complex_id"; "organism"; "subunits_uniprot_id"]
    [ [Val "CPX-1"; Val "Human"; Val "P1;P2"] ].

(** Only complexes of other organisms. *)
Definition mouse_frame : DataFrame :=
  Frame sample_columns
    [ [Val "CPX-2"; Val "Bar"; Val "Mouse"; Val "x"; Val "P1;P3"];
      [Val "CPX-4"; Val "Qux"; Val "human"; NaN; Val "P9"] ].

(** A complex name with double quotes in it. *)
Definition quoted_name_frame : DataFrame :=
  Frame sample_columns
    [ [Val "CPX-1"; Val ("the " +:+ String DQUOTE ("Foo" +:+ String DQUOTE " complex"));
       Val "Human"; NaN; Val "P1;P2 "] ].

(** The same complex under a plain name. *)
Definition renamed_frame : DataFrame :=
  Frame sample_columns
    [ [Val "CPX-1"; Val "Foo"; Val "Human"; NaN; Val "P1;P2 "] ].

(** The download is there, the final path cannot be written. *)
Definition locked_final_fs : filesystem :=
  posix_fs {["corum_humanComplexes.txt" := "(the download)"]}
           {["Complexes_prot_found_in.txt"]}.

(** The download is there, the intermediate path cannot be written. *)
Definition locked_sma_fs : filesystem :=
  posix_fs {["corum_humanComplexes.txt" := "(the download)"]}
           {["corum_humanComplexes_sma.txt"]}.

(** A file system without the download. *)
Definition empty_fs : filesystem := posix_fs ∅ ∅.

(** The download is there, the directory of the two output paths is not:
    [open] raises [FileNotFoundError], [to_csv] an [OSError] of pandas. *)
Definition no_directory_fs : filesystem :=
  Filesystem {["corum_humanComplexes.txt" := "(the download)"]}
             {["out/corum_humanComplexes_sma.txt"; "out/Complexes_prot_found_in.txt"]}
             no_directory
             (λ _, OsError IsOSError "Cannot save file into a non-existent directory: 'out'")
             Decoded.

(** The download is there, the directory of the final path is not. *)
Definition no_final_directory_fs : filesystem :=
  Filesystem {["corum_humanComplexes.txt" := "(the download)"]}
             {["out/Complexes_prot_found_in.txt"]}
             no_directory denied Decoded.

(** A locale whose encoding is ASCII: a text with a code point above 127,
    written as UTF-8, is not decoded. *)
Definition ascii_locale_fs : filesystem :=
  Filesystem {["corum_humanComplexes.txt" := "(the download)"]} ∅ denied denied
             (λ _, Undecodable []
                     "'ascii' codec can't decode byte 0xc3 in position 57: ordinal not in range(128)").

(** A human complex whose name holds a letter outside ASCII. *)
Definition accented_name_frame : DataFrame :=
  Frame sample_columns
    [ [Val "CPX-1"; Val ("Prote" +:+ String "233"%char "ine"); Val "Human"; NaN; Val "P1"] ].

(** A human complex whose name holds a TAB and whose subunits are missing,
    and the same complex with a subunit. *)
Definition tab_name_frame : DataFrame :=
  Frame sample_columns
    [ [Val "CPX-1"; Val ("A" +:+ String TAB "B"); Val "Human"; NaN; NaN] ].

(** A human complex whose subunits field ends with a CR. *)
Definition cr_subunits_frame : DataFrame :=
  Frame sample_columns
    [ [Val "CPX-1"; Val "Foo"; Val "Human"; NaN; Val ("P1" +:+ String CR "")] ].

Definition tab_name_subunit_frame : DataFrame :=
  Frame sample_columns
    [ [Val "CPX-1"; Val ("A" +:+ String TAB "B"); Val "Human"; NaN; Val "P1"] ].

(** Decides a closed decidable proposition by evaluation. *)
Ltac by_evaluation := apply (bool_decide_unpack _); vm_compute; exact I.

(** * Facts about the text primitives *)

Module StrFacts.

Lemma app_nil_l s : "" +:+ s = s.
Proof. reflexivity. Qed.

Lemma app_cons c s t : String c s +:+ t = String c (s +:+ t).
Proof. reflexivity. Qed.

Lemma app_nil_r s : s +:+ "" = s.
Proof. induction s as [|c s IH]; [done|]. by rewrite app_cons, IH. Qed.

Lemma app_assoc s t u : (s +:+ t) +:+ u = s +:+ (t +:+ u).
Proof. induction s as [|c s IH]; [done|]. by rewrite !app_cons, IH. Qed.

Lemma app_eq_nil s t : s +:+ t = "" → s = "" ∧ t = "".
Proof. destruct s; [done|]. by rewrite app_cons. Qed.

Lemma any_app p s t : Str.any p (s +:+ t) = Str.any p s || Str.any p t.
Proof.
  induction s as [|c s IH]; [done|].
  rewrite app_cons. simpl. rewrite IH. by destruct (p c).
Qed.

Lemma any_concat p l :
  Forall (λ s, Str.any p s = false) l → Str.any p (Str.concat l) = false.
Proof.
  induction 1 as [|s l Hs _ IH]; [done|].
  simpl. by rewrite any_app, Hs, IH.
Qed.

Lemma any_mono (p q : ascii → bool) s :
  (∀ c, p c = true → q c = true) → Str.any q s = false → Str.any p s = false.
Proof.
  intros Hpq. induction s as [|c s IH]; [done|]. simpl.
  intros [Hq Hs]%orb_false_iff. rewrite (IH Hs), orb_false_r.
  destruct (p c) eqn:Hp; [|done]. apply Hpq in Hp. congruence.
Qed.

(** ** [split] *)

Lemma split_not_nil sep s : Str.split sep s ≠ [].
Proof.
  destruct s as [|c s]; [done|]. simpl.
  case_decide; [done|]. by destruct (Str.split sep s).
Qed.

Lemma split_free sep s : Str.any (is_char sep) s = false → Str.split sep s = [s].
Proof.
  induction s as [|c s IH]; [done|]. simpl.
  intros [Hc Hs]%orb_false_iff. apply bool_decide_eq_false in Hc.
  case_decide; [done|]. by rewrite (IH Hs).
Qed.

Lemma split_app sep s r :
  Str.any (is_char sep) s = false →
  Str.split sep (s +:+ String sep r) = s :: Str.split sep r.
Proof.
  induction s as [|c s IH].
  - intros _. rewrite app_nil_l. simpl. by case_decide.
  - simpl. intros [Hc Hs]%orb_false_iff. apply bool_decide_eq_false in Hc.
    case_decide; [done|]. by rewrite (IH Hs).
Qed.

Lemma split_parts_free sep s :
  Forall (λ x, Str.any (is_char sep) x = false) (Str.split sep s).
Proof.
  induction s as [|c s IH]; [by repeat constructor|]. simpl.
  case_decide as Hc; [by constructor|].
  destruct (Str.split sep s) as [|h t]; [repeat constructor|].
  - simpl. rewrite orb_false_r. by apply bool_decide_eq_false.
  - inversion_clear IH as [|?? Hh Ht]. constructor; [|done].
    simpl. rewrite Hh, orb_false_r. by apply bool_decide_eq_false.
Qed.

Lemma split_parts_any p sep s :
  Str.any p s = false → Forall (λ x, Str.any p x = false) (Str.split sep s).
Proof.
  induction s as [|c s IH]; [by repeat constructor|]. simpl.
  intros [Hc Hs]%orb_false_iff. specialize (IH Hs).
  case_decide; [by constructor|].
  destruct (Str.split sep s) as [|h t]; [repeat constructor|].
  - simpl. by rewrite Hc.
  - inversion_clear IH as [|?? Hh Ht]. constructor; [|done].
    simpl. by rewrite Hc, Hh.
Qed.

(** ** [lstrip], [rstrip], [strip] *)

Lemma lstrip_any p s : Str.any p s = false → Str.any p (Str.lstrip s) = false.
Proof.
  induction s as [|c s IH]; [done|]. simpl.
  intros [Hc Hs]%orb_false_iff.
  destruct (py_isspace c); [by apply IH|]. simpl. by rewrite Hc, Hs.
Qed.

Lemma rstrip_any p s : Str.any p s = false → Str.any p (Str.rstrip s) = false.
Proof.
  induction s as [|c s IH]; [done|]. simpl.
  intros [Hc Hs]%orb_false_iff. specialize (IH Hs).
  destruct (Str.rstrip s) as [|c' r].
  - destruct (py_isspace c); [done|]. simpl. by rewrite Hc.
  - change (Str.any p (String c (String c' r))) with (p c || Str.any p (String c' r)).
    by rewrite Hc, IH.
Qed.

Lemma strip_any p s : Str.any p s = false → Str.any p (Str.strip s) = false.
Proof. intros. by apply rstrip_any, lstrip_any. Qed.

Lemma rstrip_cons c s :
  Str.rstrip (String c s) =
    if decide (Str.rstrip s = "") then (if py_isspace c then "" else String c "")
    else String c (Str.rstrip s).
Proof. simpl. destruct (Str.rstrip s); by case_decide. Qed.

Lemma rstrip_app_r a b : Str.rstrip b ≠ "" → Str.rstrip (a +:+ b) = a +:+ Str.rstrip b.
Proof.
  intros Hb. induction a as [|c a IH]; [done|].
  rewrite !app_cons, rstrip_cons, IH. case_decide as Hnil; [|done].
  by apply app_eq_nil in Hnil as [_ ?].
Qed.

Lemma rstrip_app_l a b : Str.rstrip b = "" → Str.rstrip (a +:+ b) = Str.rstrip a.
Proof.
  intros Hb. induction a as [|c a IH]; [done|].
  by rewrite app_cons, !rstrip_cons, IH.
Qed.

Lemma lstrip_rstrip s : Str.lstrip (Str.rstrip s) = Str.rstrip (Str.lstrip s).
Proof.
  induction s as [|c s IH]; [done|].
  rewrite rstrip_cons. simpl Str.lstrip at 2.
  destruct (py_isspace c) eqn:Hc.
  - rewrite <-IH. case_decide as Hnil; [by rewrite Hnil|]. simpl. by rewrite Hc.
  - rewrite rstrip_cons. case_decide; simpl; by rewrite Hc.
Qed.

Lemma strip_of_rstrip a b : Str.rstrip a = Str.rstrip b → Str.strip a = Str.strip b.
Proof. unfold Str.strip. rewrite <-!lstrip_rstrip. by intros ->. Qed.

Lemma rstrip_nil_strip s : Str.rstrip s = "" → Str.strip s = "".
Proof. intros Hs. unfold Str.strip. by rewrite <-lstrip_rstrip, Hs. Qed.

Lemma strip_not_nil_rstrip s : Str.strip s ≠ "" → Str.rstrip s ≠ "".
Proof. intros Hs Hr. by apply Hs, rstrip_nil_strip. Qed.

End StrFacts.

(** * Stages 1 and 2: filter, projection and the intermediate file *)

Section frame_facts.

Lemma index_of_elem_of name cols : name ∈ cols → is_Some (index_of name cols).
Proof.
  induction cols as [|x cols IH]; [by intros ?%elem_of_nil|].
  intros Hin. simpl. case_decide as Hx; [by eexists|].
  apply elem_of_cons in Hin as [->|Hin]; [done|].
  destruct (IH Hin) as [i ->]. by eexists.
Qed.

Lemma boolean_index_eq_scalar (i : nat) (scalar : string) (l : list (list cell)) :
  boolean_index l (eq_scalar scalar (cell_at i <$> l)) =
    filter (λ row, cell_at i row = Val scalar) l.
Proof.
  induction l as [|row l IH]; [done|].
  unfold eq_scalar in *. cbn [fmap list_fmap boolean_index].
  rewrite IH, filter_cons.
  destruct (cell_at i row) as [s|] eqn:Hcell.
  - destruct (decide (s = scalar)) as [->|Hne].
    + rewrite bool_decide_eq_true_2 by done. by rewrite decide_True.
    + rewrite bool_decide_eq_false_2 by done.
      rewrite decide_False; [done|]. by intros [= ->].
  - by rewrite decide_False.
Qed.

Lemma needs_quote_special c : needs_quote c = true → special c = true.
Proof.
  unfold needs_quote, special. intros Hc%bool_decide_eq_true.
  apply bool_decide_eq_true. tauto.
Qed.

Lemma csv_field_plain s : plain s → csv_field s = s.
Proof.
  unfold plain, csv_field. intros Hs.
  by rewrite (StrFacts.any_mono needs_quote special s needs_quote_special Hs).
Qed.

Lemma csv_record_sma_columns : csv_record sma_columns = sma_header.
Proof. reflexivity. Qed.

End frame_facts.

Section stage12.

Variable read_csv : string → result DataFrame.
Variable not_in_index : list string → string.

Lemma select_human_ok df :
  has_required_columns df →
  select_human not_in_index df =
    inr (Frame sma_columns
           (projection df <$>
              filter (λ row, field df "organism" row = Val "Human") (rows df))).
Proof.
  unfold has_required_columns, required_columns, sma_columns.
  intros Hcols. repeat (apply Forall_cons in Hcols as [?%index_of_elem_of Hcols]).
  destruct H as [io Hio], H0 as [i1 Hi1], H1 as [i2 Hi2], H2 as [i3 Hi3].
  unfold select_human, getitem, getitem_list. rewrite Hio. cbn.
  rewrite Hi1, Hi2, Hi3. do 2 f_equal.
  rewrite boolean_index_eq_scalar.
  unfold projection, field, sma_columns. cbn. rewrite Hio, Hi1, Hi2, Hi3.
  done.
Qed.

Lemma decode_text_write_file path text fs content :
  decode_text (write_file path text fs) content = decode_text fs content.
Proof. reflexivity. Qed.

(** The body of the [try], stage by stage. *)
Lemma body_cases fs input_file output_sma_file output_complexes_file :
  process_body read_csv not_in_index input_file output_sma_file output_complexes_file fs =
  match files fs !! input_file with
  | None => (inl (no_such_file input_file), fs)
  | Some text =>
    match read_csv text with
    | inl e => (inl e, fs)
    | inr df =>
      match select_human not_in_index df with
      | inl e => (inl e, fs)
      | inr sma_df =>
        if decide (output_sma_file ∈ unwritable fs)
        then (inl (raise_os (to_csv_error fs output_sma_file)), fs)
        else
          let fs2 := after_stage2 sma_df output_sma_file fs in
          match rescan fs (csv_text sma_df) with
          | inl e => (inl e, fs2)
          | inr d =>
            if decide (output_complexes_file ∈ unwritable fs)
            then (inl (raise_os (open_error fs output_complexes_file)), fs2)
            else (inr (), after_stage3 d output_complexes_file fs2)
          end
      end
    end
  end.
Proof.
  unfold process_body, mbind, io_bind, lift, read_file.
  destruct (files fs !! input_file) as [text|]; [|done].
  destruct (read_csv text) as [e|df]; [done|].
  destruct (select_human not_in_index df) as [e|sma_df]; [done|].
  unfold to_csv. case_decide as Hw; [done|]. cbn zeta.
  unfold open_read, after_stage2, rescan.
  replace (files (write_file output_sma_file (csv_text sma_df) fs) !! output_sma_file)
    with (Some (csv_text sma_df))
    by (unfold write_file; cbn [files]; by rewrite lookup_insert_eq).
  rewrite decode_text_write_file.
  destruct (decode_text fs (csv_text sma_df)) as [text'|delivered message]; cbn [fst snd].
  - cbn [invert_file]. destruct (invert (readlines text')) as [e|d]; [done|].
    unfold open_write, after_stage3. cbn [unwritable open_error write_file].
    by case_decide.
  - destruct (invert_file delivered _) as [e|d]; [done|].
    unfold open_write, after_stage3. cbn [unwritable open_error write_file].
    by case_decide.
Qed.

End stage12.

(** * Stage 3: the scan *)

Section scan_facts.

Lemma record_subunit_insert c (d : index) t :
  record_subunit c d t = <[t := (default [] (d !! t) ++ [c])%list]> d.
Proof.
  unfold record_subunit. destruct (d !! t) as [ids|] eqn:Ht.
  - by rewrite Ht.
  - rewrite lookup_insert_eq. cbn. by rewrite insert_insert_eq.
Qed.

Lemma extend_extend entry l1 l2 :
  extend (extend entry l1) l2 = extend entry (l1 ++ l2).
Proof.
  destruct l1 as [|x l1]; [done|]. destruct l2 as [|y l2].
  - by rewrite app_nil_r.
  - cbn. by rewrite <-app_assoc.
Qed.

Lemma record_subunit_lookup c (d : index) t k :
  record_subunit c d t !! k = extend (d !! k) (if decide (t = k) then [c] else []).
Proof.
  rewrite record_subunit_insert. case_decide as Htk.
  - subst. by rewrite lookup_insert_eq.
  - by rewrite lookup_insert_ne.
Qed.

Lemma foldl_record_subunit_lookup c toks (d : index) k :
  foldl (record_subunit c) d toks !! k =
    extend (d !! k) ((λ _, c) <$> filter (λ x, x = k) toks).
Proof.
  revert d. induction toks as [|t toks IH]; intros d; [done|].
  cbn [foldl]. rewrite IH, record_subunit_lookup, extend_extend, filter_cons.
  by case_decide.
Qed.

Lemma build_lookup recs (d : index) k :
  build d recs !! k = extend (d !! k) (postings recs k).
Proof.
  revert d. induction recs as [|r recs IH]; intros d; [done|].
  unfold build, postings in *. cbn [foldl mbind list_bind].
  rewrite IH, foldl_record_subunit_lookup, extend_extend. done.
Qed.

Lemma build_empty_lookup recs k :
  build ∅ recs !! k = match postings recs k with [] => None | ids => Some ids end.
Proof. rewrite build_lookup, lookup_empty. by destruct (postings recs k). Qed.

Lemma scan_parse_lines d lines :
  scan d lines =
    match parse_lines lines with
    | inl e => inl e
    | inr recs => inr (build d recs)
    end.
Proof.
  revert d. induction lines as [|line lines IH]; intros d; [done|].
  cbn [scan parse_lines]. unfold scan_line.
  destruct (parse_line line) as [e|[c subs]]; [done|].
  rewrite IH. by destruct (parse_lines lines).
Qed.

Lemma elem_of_postings recs k c :
  c ∈ postings recs k ↔
    ∃ r, r ∈ recs ∧ r.1 = c ∧ k ∈ subunits_of r.2.
Proof.
  unfold postings. rewrite list_elem_of_bind. split.
  - intros (r & Hc & Hr). exists r. split; [done|].
    unfold hits in Hc. apply list_elem_of_fmap in Hc as (x & -> & Hx).
    apply list_elem_of_filter in Hx as [-> Hx]. done.
  - intros (r & Hr & <- & Hk). exists r. split; [|done].
    unfold hits. apply list_elem_of_fmap. exists k. split; [done|].
    by apply list_elem_of_filter.
Qed.

End scan_facts.

(** * Lines of the intermediate file *)

Section line_facts.

Import StrFacts.

Lemma plain_no_char c s :
  special c = true → plain s → Str.any (is_char c) s = false.
Proof.
  intros Hc. apply any_mono. intros x Hx.
  apply bool_decide_eq_true in Hx. by subst.
Qed.

Lemma translate_newlines_id s :
  Str.any (is_char CR) s = false → translate_newlines s = s.
Proof.
  induction s as [|c s IH]; [done|].
  cbn [Str.any]. intros [Hc Hs]%orb_false_iff. apply bool_decide_eq_false in Hc.
  cbn [translate_newlines]. rewrite decide_False by done. by rewrite IH.
Qed.

Lemma split_lines_app l rest :
  Str.any (is_char LF) l = false →
  split_lines (l +:+ String LF rest) = (l +:+ String LF "") :: split_lines rest.
Proof.
  induction l as [|c l IH].
  - intros _. rewrite !app_nil_l. cbn. by rewrite decide_True.
  - cbn [Str.any]. intros [Hc Hl]%orb_false_iff. apply bool_decide_eq_false in Hc.
    rewrite !app_cons. cbn [split_lines]. rewrite decide_False by done.
    by rewrite (IH Hl).
Qed.

Lemma split_lines_concat bodies :
  Forall (λ l, Str.any (is_char LF) l = false) bodies →
  split_lines (Str.concat ((λ l, l +:+ String LF "") <$> bodies)) =
    (λ l, l +:+ String LF "") <$> bodies.
Proof.
  induction 1 as [|l bodies Hl _ IH]; [done|].
  cbn [fmap list_fmap Str.concat].
  rewrite app_assoc, app_cons, app_nil_l, split_lines_app by done.
  by rewrite IH.
Qed.

Lemma lstrip_length s : (String.length (Str.lstrip s) ≤ String.length s)%nat.
Proof.
  induction s as [|c s IH]; [done|]. cbn [Str.lstrip].
  destruct (py_isspace c); cbn [String.length]; lia.
Qed.

Lemma lstrip_id_head c s : Str.lstrip (String c s) = String c s → py_isspace c = false.
Proof.
  cbn [Str.lstrip]. destruct (py_isspace c); [|done].
  intros Heq. pose proof (lstrip_length s) as Hlen.
  rewrite Heq in Hlen. cbn [String.length] in Hlen. lia.
Qed.

Lemma lstrip_app_id a b :
  a ≠ "" → Str.lstrip a = a → Str.lstrip (a +:+ b) = a +:+ b.
Proof.
  destruct a as [|c a]; [done|]. intros _ Hc%lstrip_id_head.
  rewrite app_cons. cbn [Str.lstrip]. by rewrite Hc.
Qed.

Lemma raw_record_3 cid name subs :
  raw_record [cid; name; subs] =
    cid +:+ String TAB (name +:+ String TAB (subs +:+ String LF "")).
Proof.
  unfold raw_record. cbn [Str.join].
  by rewrite !app_assoc, !app_cons, !app_nil_l.
Qed.

Lemma any_is_char_single c x :
  c ≠ x → Str.any (is_char c) (String x "") = false.
Proof.
  intros Hne. cbn [Str.any]. unfold is_char.
  rewrite bool_decide_eq_false_2 by congruence. done.
Qed.

End line_facts.

Section token_facts.

Import StrFacts.

Lemma rstrip_nil_inv c s :
  Str.rstrip (String c s) = "" → py_isspace c = true ∧ Str.rstrip s = "".
Proof.
  rewrite rstrip_cons. case_decide; [|done]. by destruct (py_isspace c).
Qed.

Lemma rstrip_nil_no_char c s :
  py_isspace c = false → Str.rstrip s = "" → Str.any (is_char c) s = false.
Proof.
  intros Hc. induction s as [|x s IH]; [done|].
  intros [Hx Hs]%rstrip_nil_inv. cbn [Str.any]. rewrite (IH Hs), orb_false_r.
  apply bool_decide_eq_false. intros ->. congruence.
Qed.

Lemma split_rstrip sep s :
  py_isspace sep = false →
  Forall2 (λ a b, Str.rstrip a = Str.rstrip b)
          (Str.split sep (Str.rstrip s)) (Str.split sep s).
Proof.
  intros Hsep. induction s as [|c s IH]; [by repeat constructor|].
  rewrite rstrip_cons. case_decide as Hnil.
  - pose proof (split_free sep s (rstrip_nil_no_char sep s Hsep Hnil)) as Hsplit.
    cbn [Str.split]. rewrite Hsplit.
    destruct (py_isspace c) eqn:Hc.
    + rewrite decide_False by (intros ->; congruence).
      repeat constructor. by rewrite rstrip_cons, Hnil, Hc, decide_True.
    + case_decide as Hcs.
      * cbn. case_decide; [|done]. repeat constructor. by rewrite Hnil.
      * cbn [Str.split]. rewrite decide_False by done.
        repeat constructor. by rewrite !rstrip_cons, Hnil, Hc.
  - cbn [Str.split]. case_decide as Hcs; [by constructor|].
    destruct (Str.split sep (Str.rstrip s)) as [|h t] eqn:Hl;
      [by apply split_not_nil in Hl|].
    destruct (Str.split sep s) as [|h' t'] eqn:Hr;
      [by apply split_not_nil in Hr|].
    inversion_clear IH as [|???? Hh Ht]. constructor; [|done].
    by rewrite !rstrip_cons, Hh.
Qed.

Lemma subunits_of_rstrip s : subunits_of (Str.rstrip s) = subunits_of s.
Proof.
  unfold subunits_of. f_equal.
  pose proof (split_rstrip SEMICOLON s eq_refl) as H.
  induction H as [|a b l l' Hab _ IH]; [done|].
  cbn [fmap list_fmap]. by rewrite (strip_of_rstrip a b Hab), IH.
Qed.

End token_facts.


(** * The sorted keys and the final file *)

Section final_facts.

Import StrFacts.

Lemma sorted_subunits_perm (d : index) : sorted_subunits d ≡ₚ (map_to_list d).*1.
Proof. apply merge_sort_Permutation. Qed.

Lemma elem_of_sorted_subunits (d : index) k : k ∈ sorted_subunits d ↔ is_Some (d !! k).
Proof.
  rewrite sorted_subunits_perm, list_elem_of_fmap. split.
  - intros ([k' ids] & -> & Hin). apply elem_of_map_to_list in Hin. by eexists.
  - intros [ids Hk]. exists (k, ids). split; [done|]. by apply elem_of_map_to_list.
Qed.

Lemma sorted_subunits_NoDup (d : index) : NoDup (sorted_subunits d).
Proof. rewrite sorted_subunits_perm. apply NoDup_fst_map_to_list. Qed.

Lemma str_le_ne_lt a b : String.le a b → a ≠ b → str_lt a b.
Proof.
  unfold String.le, str_lt, String.leb, String.ltb.
  destruct (a ?= b)%string eqn:Hcmp; [|done|done].
  apply String.compare_eq_iff in Hcmp. by intros _ [].
Qed.

Lemma StronglySorted_strict l :
  NoDup l → StronglySorted String.le l → StronglySorted str_lt l.
Proof.
  intros Hnd Hs. induction Hs as [|a l Hs IH Hall]; [constructor|].
  apply NoDup_cons in Hnd as [Ha Hnd]. constructor; [by apply IH|].
  rewrite Forall_forall in Hall. apply Forall_forall. intros b Hb.
  apply str_le_ne_lt; [by apply Hall|]. intros ->. done.
Qed.

Lemma sorted_subunits_sorted (d : index) : StronglySorted str_lt (sorted_subunits d).
Proof.
  apply StronglySorted_strict; [apply sorted_subunits_NoDup|].
  apply (StronglySorted_merge_sort String.le).
Qed.

End final_facts.

(** * What the scan can put into the index *)

Section tidy_facts.

Import StrFacts.

Lemma tidy_no_char c s :
  c = TAB ∨ c = LF ∨ c = CR → tidy s → Str.any (is_char c) s = false.
Proof.
  intros Hc. apply any_mono. intros x Hx. apply bool_decide_eq_true in Hx. subst x.
  unfold is_char. destruct Hc as [-> | [-> | ->]]; done.
Qed.

Lemma tidy_intro s :
  Str.any (is_char TAB) s = false → Str.any (is_char LF) s = false →
  Str.any (is_char CR) s = false → tidy s.
Proof.
  unfold tidy. induction s as [|c s IH]; [done|]. cbn [Str.any].
  intros [-> ?]%orb_false_iff [-> ?]%orb_false_iff [-> ?]%orb_false_iff.
  cbn. by apply IH.
Qed.

Lemma translate_newlines_no_CR s : Str.any (is_char CR) (translate_newlines s) = false.
Proof.
  induction s as [|c s IH]; [done|]. cbn [translate_newlines].
  case_decide as Hc.
  - destruct s as [|c' s]; [done|]. case_decide; [done|].
    cbn [Str.any]. by rewrite IH.
  - cbn [Str.any]. rewrite IH, orb_false_r. by apply bool_decide_eq_false.
Qed.

Lemma split_lines_any p s :
  Str.any p s = false → Forall (λ l, Str.any p l = false) (split_lines s).
Proof.
  induction s as [|c s IH]; [constructor|]. cbn [Str.any split_lines].
  intros [Hc Hs]%orb_false_iff. specialize (IH Hs). case_decide as Hlf.
  - constructor; [|done]. subst c. cbn. by rewrite Hc.
  - destruct (split_lines s) as [|l ls].
    + repeat constructor. cbn. by rewrite Hc.
    + inversion_clear IH as [|?? Hl Hls]. constructor; [|done].
      cbn. by rewrite Hc, Hl.
Qed.

(** A line holds LF at its end only. *)
Lemma split_lines_shape s :
  Forall (λ l, ∃ body, Str.any (is_char LF) body = false ∧
                (l = body ∨ l = body +:+ String LF ""))
         (split_lines s).
Proof.
  induction s as [|c s IH]; [constructor|]. cbn [split_lines].
  case_decide as Hlf.
  - constructor; [|done]. exists "". split; [done|]. by right.
  - destruct (split_lines s) as [|l ls].
    + repeat constructor. exists (String c ""). split; [|by left].
      cbn. rewrite orb_false_r. by apply bool_decide_eq_false.
    + inversion_clear IH as [|?? (body & Hb & Hl) Hls]. constructor; [|done].
      exists (String c body). split.
      * cbn. rewrite Hb, orb_false_r. by apply bool_decide_eq_false.
      * destruct Hl as [->| ->]; [by left|by right].
Qed.

Lemma strip_line_no_LF body :
  Str.any (is_char LF) body = false →
  Str.any (is_char LF) (Str.strip (body +:+ String LF "")) = false.
Proof.
  intros Hb. unfold Str.strip. rewrite <-lstrip_rstrip, rstrip_app_l by done.
  by apply lstrip_any, rstrip_any.
Qed.

Lemma readlines_strip_clean content l :
  l ∈ readlines content →
  Str.any (is_char LF) (Str.strip l) = false ∧ Str.any (is_char CR) (Str.strip l) = false.
Proof.
  unfold readlines. intros Hl. split.
  - pose proof (split_lines_shape (translate_newlines content)) as Hshape.
    rewrite Forall_forall in Hshape.
    destruct (Hshape l Hl) as (body & Hb & [->| ->]).
    + by apply strip_any.
    + by apply strip_line_no_LF.
  - pose proof (split_lines_any _ _ (translate_newlines_no_CR content)) as Hcr.
    rewrite Forall_forall in Hcr. by apply strip_any, Hcr.
Qed.

Lemma parse_line_inv l c subs :
  parse_line l = inr (c, subs) →
  ∃ name, Str.split TAB (Str.strip l) = [c; name; subs].
Proof.
  unfold parse_line.
  destruct (Str.split TAB (Str.strip l)) as [|a [|b [|x [|y t]]]]; try done.
  intros [= <- <-]. by eexists.
Qed.

Lemma parse_line_tidy content l c subs :
  l ∈ readlines content → parse_line l = inr (c, subs) → tidy c ∧ tidy subs.
Proof.
  intros [Hlf Hcr]%readlines_strip_clean [name Hsplit]%parse_line_inv.
  pose proof (split_parts_free TAB (Str.strip l)) as Htab.
  pose proof (split_parts_any _ TAB _ Hlf) as Hlf'.
  pose proof (split_parts_any _ TAB _ Hcr) as Hcr'.
  rewrite Hsplit in Htab, Hlf', Hcr'.
  rewrite !Forall_cons in Htab, Hlf', Hcr'.
  destruct Htab as (? & _ & ? & _), Hlf' as (? & _ & ? & _), Hcr' as (? & _ & ? & _).
  split; by apply tidy_intro.
Qed.

Lemma subunits_of_tidy subs k : tidy subs → k ∈ subunits_of subs → tidy k.
Proof.
  unfold subunits_of. intros Hs [_ Hk]%list_elem_of_filter.
  apply list_elem_of_fmap in Hk as (part & -> & Hpart).
  apply strip_any. pose proof (split_parts_any _ SEMICOLON _ Hs) as Hparts.
  rewrite Forall_forall in Hparts. by apply Hparts.
Qed.

Lemma build_tidy recs (d : index) :
  Forall (λ r, tidy r.1 ∧ tidy r.2) recs → index_tidy d → index_tidy (build d recs).
Proof.
  intros Hrecs Hd k ids. rewrite build_lookup. rewrite Forall_forall in Hrecs.
  assert (∀ c, c ∈ postings recs k → tidy c) as Hpost.
  { intros c (r & Hr & <- & _)%elem_of_postings. by apply Hrecs. }
  destruct (postings recs k) as [|c0 more] eqn:Hp; cbn [extend].
  - apply Hd.
  - intros [= <-]. split.
    + assert (c0 ∈ postings recs k) as (r & Hr & _ & Hk)%elem_of_postings
        by (rewrite Hp; left).
      eapply subunits_of_tidy; [|done]. by apply Hrecs.
    + apply Forall_app. split.
      * destruct (d !! k) as [old|] eqn:Hold; [|constructor]. by apply (Hd k old).
      * apply Forall_forall. intros c Hc. apply Hpost. done.
Qed.

Lemma parse_lines_Forall2 lines recs :
  parse_lines lines = inr recs → Forall2 (λ l r, parse_line l = inr r) lines recs.
Proof.
  revert recs. induction lines as [|l lines IH]; intros recs.
  - intros [= <-]. constructor.
  - cbn [parse_lines]. destruct (parse_line l) as [e|r] eqn:Hl; [done|].
    destruct (parse_lines lines) as [e|rs]; [done|].
    intros [= <-]. constructor; [done|]. by apply IH.
Qed.

Lemma Forall2_elem_of_r {A B} (P : A → B → Prop) l k y :
  Forall2 P l k → y ∈ k → ∃ x, x ∈ l ∧ P x y.
Proof.
  induction 1 as [|x y' l k Hxy _ IH]; [by intros ?%elem_of_nil|].
  intros [->|Hy]%elem_of_cons.
  - exists x. split; [left|done].
  - destruct (IH Hy) as (x' & ? & ?). exists x'. split; [by right|done].
Qed.

Lemma index_tidy_empty : index_tidy ∅.
Proof. intros k ids. by rewrite lookup_empty. Qed.

Lemma invert_tidy content d : invert (readlines content) = inr d → index_tidy d.
Proof.
  unfold invert. destruct (readlines content) as [|header data] eqn:Hlines; [done|].
  rewrite scan_parse_lines.
  destruct (parse_lines data) as [e|recs] eqn:Hparse; [done|].
  intros [= <-]. apply build_tidy; [|apply index_tidy_empty].
  apply parse_lines_Forall2 in Hparse. apply Forall_forall. intros [c subs] Hr.
  destruct (Forall2_elem_of_r _ _ _ _ Hparse Hr) as (l & Hl & Hp).
  eapply (parse_line_tidy content); [|done].
  rewrite Hlines. by right.
Qed.

End tidy_facts.

(** * Reading the final file back *)

Section readback_facts.

Import StrFacts.

Lemma any_join p sep l :
  Str.any p sep = false → Forall (λ s, Str.any p s = false) l →
  Str.any p (Str.join sep l) = false.
Proof.
  intros Hsep. induction 1 as [|s l Hs Hl IH]; [done|].
  destruct l as [|s' l]; [done|].
  change (Str.join sep (s :: s' :: l)) with (s +:+ sep +:+ Str.join sep (s' :: l)).
  by rewrite !any_app, Hs, Hsep, IH.
Qed.

Lemma complexes_row_body d k : complexes_row d k = row_body d k +:+ String LF "".
Proof. unfold complexes_row, row_body. by rewrite app_cons, app_assoc, app_cons. Qed.

Lemma row_body_no_char c (d : index) k :
  c = LF ∨ c = CR → index_tidy d → is_Some (d !! k) →
  Str.any (is_char c) (row_body d k) = false.
Proof.
  intros Hc Hd [ids Hk]. destruct (Hd k ids Hk) as [Htk Hids].
  unfold row_body. rewrite (lookup_total_correct _ _ _ Hk).
  assert (c = TAB ∨ c = LF ∨ c = CR) as Hc' by tauto.
  rewrite any_app, (tidy_no_char c k Hc' Htk). cbn [Str.any orb].
  assert (is_char c TAB = false) as ->.
  { apply bool_decide_eq_false. destruct Hc as [-> | ->]; done. }
  apply any_join.
  - cbn. rewrite orb_false_r. apply bool_decide_eq_false.
    destruct Hc as [-> | ->]; done.
  - eapply Forall_impl; [done|]. intros s Hs. by apply tidy_no_char.
Qed.

Lemma readlines_complexes_text (d : index) :
  index_tidy d →
  readlines (complexes_text d) = complexes_header :: (complexes_row d <$> sorted_subunits d).
Proof.
  intros Hd. unfold readlines, complexes_text.
  assert (complexes_row d <$> sorted_subunits d =
          (λ l, l +:+ String LF "") <$> (row_body d <$> sorted_subunits d)) as ->.
  { rewrite <-list_fmap_compose. apply list_fmap_ext. intros _ k _.
    apply complexes_row_body. }
  assert (∀ c, c = LF ∨ c = CR →
    Forall (λ l, Str.any (is_char c) l = false) (row_body d <$> sorted_subunits d))
    as Hbodies.
  { intros c Hc. apply Forall_fmap, Forall_forall. intros k Hk.
    apply row_body_no_char; [done..|]. by apply elem_of_sorted_subunits. }
  rewrite translate_newlines_id.
  - change complexes_header
      with (("subunits_uniprot_id" +:+ String TAB "complex_ids") +:+ String LF "").
    rewrite app_assoc, (app_cons LF ""), app_nil_l, split_lines_app by done.
    by rewrite ?app_nil_l, split_lines_concat by (apply Hbodies; by left).
  - rewrite any_app. apply orb_false_iff. split; [done|].
    apply any_concat, Forall_fmap. eapply Forall_impl; [apply (Hbodies CR); by right|].
    intros l Hl. cbn. by rewrite any_app, Hl.
Qed.

Lemma key_of_complexes_row (d : index) k : tidy k → key_of (complexes_row d k) = k.
Proof.
  intros Hk. unfold key_of, complexes_row.
  rewrite (app_cons TAB), split_app; [done|]. apply tidy_no_char; [by left|done].
Qed.

Lemma keys_of_complexes_text (d : index) :
  index_tidy d → key_of <$> data_lines (complexes_text d) = sorted_subunits d.
Proof.
  intros Hd. unfold data_lines. rewrite readlines_complexes_text by done.
  cbn [tail]. rewrite <-list_fmap_compose.
  rewrite <-(list_fmap_id (sorted_subunits d)) at 2.
  apply list_fmap_ext. intros i k Hk. cbn.
  apply list_elem_of_lookup_2, elem_of_sorted_subunits in Hk as [ids Hids].
  apply key_of_complexes_row. by apply (Hd k ids).
Qed.

End readback_facts.

(** * The run, case by case *)

Section run_facts.

Variable read_csv : string → result DataFrame.
Variable not_in_index : list string → string.

Lemma process_cases fs input_file output_sma_file output_complexes_file :
  process_corum_data read_csv not_in_index
    input_file output_sma_file output_complexes_file fs =
  match files fs !! input_file with
  | None => (handle input_file (no_such_file input_file), fs)
  | Some text =>
    match read_csv text with
    | inl e => (handle input_file e, fs)
    | inr df =>
      match select_human not_in_index df with
      | inl e => (handle input_file e, fs)
      | inr sma_df =>
        if decide (output_sma_file ∈ unwritable fs)
        then (handle input_file (raise_os (to_csv_error fs output_sma_file)), fs)
        else
          let fs2 := after_stage2 sma_df output_sma_file fs in
          match rescan fs (csv_text sma_df) with
          | inl e => (handle input_file e, fs2)
          | inr d =>
            if decide (output_complexes_file ∈ unwritable fs)
            then (handle input_file (raise_os (open_error fs output_complexes_file)), fs2)
            else (Returned [], after_stage3 d output_complexes_file fs2)
          end
      end
    end
  end.
Proof.
  unfold process_corum_data. rewrite body_cases.
  destruct (files fs !! input_file) as [text|]; [|done].
  destruct (read_csv text) as [e|df]; [done|].
  destruct (select_human not_in_index df) as [e|sma_df]; [done|].
  case_decide; [done|]. cbn zeta.
  destruct (rescan fs (csv_text sma_df)) as [e|d]; [done|].
  by case_decide.
Qed.

Lemma rescan_reads_back fs text :
  reads_back fs text → rescan fs text = invert (readlines text).
Proof. unfold reads_back, rescan. by intros ->. Qed.

End run_facts.

(** * The handler and malformed lines *)

Section handler_facts.

Lemma handle_not_silent input_file e : handle input_file e ≠ Returned [].
Proof.
  unfold handle. repeat (destruct (issubclass _ _)); discriminate.
Qed.

Lemma handle_unpack_error input_file n :
  handle input_file (unpack_error n) =
    Returned [unexpected_message (exn_str (unpack_error n))].
Proof. reflexivity. Qed.

Lemma handle_raise_os input_file err :
  handle input_file (raise_os err) =
    Returned [if decide (os_class err = IsFileNotFoundError)
              then not_found_message input_file
              else unexpected_message (os_text err)].
Proof. by destruct err as [[] message]. Qed.

Lemma raise_os_Exception err : issubclass (exn_cls (raise_os err)) Exception = true.
Proof. by destruct err as [[] message]. Qed.

Lemma handle_Exception input_file e :
  issubclass (exn_cls e) Exception = true →
  ∃ line, handle input_file e = Returned [line] ∧
    (line = not_found_message input_file ∨ line = parse_message input_file ∨
     line = unexpected_message (exn_str e)).
Proof.
  intros He. unfold handle. rewrite He.
  destruct (issubclass (exn_cls e) FileNotFoundError); [eexists; eauto|].
  destruct (issubclass (exn_cls e) ParserError); eexists; eauto.
Qed.

Lemma parse_line_error l e :
  parse_line l = inl e →
  e = unpack_error (length (Str.split TAB (Str.strip l))) ∧
  length (Str.split TAB (Str.strip l)) ≠ 3.
Proof.
  unfold parse_line.
  destruct (Str.split TAB (Str.strip l)) as [|a [|b [|x [|y t]]]];
    intros [= <-]; by split.
Qed.

Lemma parse_line_three_fields l r :
  parse_line l = inr r → length (Str.split TAB (Str.strip l)) = 3.
Proof.
  unfold parse_line.
  by destruct (Str.split TAB (Str.strip l)) as [|a [|b [|x [|y t]]]].
Qed.

Lemma parse_lines_malformed lines line :
  line ∈ lines →
  length (Str.split TAB (Str.strip line)) ≠ 3 →
  ∃ n, n ≠ 3 ∧ parse_lines lines = inl (unpack_error n).
Proof.
  induction lines as [|l lines IH]; [by intros ?%elem_of_nil|].
  intros Hin Hbad. cbn [parse_lines].
  destruct (parse_line l) as [e|r] eqn:Hl.
  - apply parse_line_error in Hl as [-> Hn]. eauto.
  - apply elem_of_cons in Hin as [->|Hin].
    + apply parse_line_three_fields in Hl. done.
    + destruct (IH Hin Hbad) as (n & Hn & ->). eauto.
Qed.

Lemma parse_lines_error lines e :
  parse_lines lines = inl e → exn_cls e = ValueError.
Proof.
  induction lines as [|l lines IH]; [done|]. cbn [parse_lines].
  destruct (parse_line l) as [e'|r] eqn:Hl.
  - intros [= <-]. by apply parse_line_error in Hl as [-> _].
  - destruct (parse_lines lines); [|done]. intros [= <-]. by apply IH.
Qed.

Lemma parse_lines_unpack_error lines e :
  parse_lines lines = inl e → ∃ n, n ≠ 3 ∧ e = unpack_error n.
Proof.
  induction lines as [|l lines IH]; [done|]. cbn [parse_lines].
  destruct (parse_line l) as [e'|r] eqn:Hl.
  - intros [= <-]. apply parse_line_error in Hl as [-> Hn]. eauto.
  - destruct (parse_lines lines); [|done]. intros [= <-]. by apply IH.
Qed.

Lemma invert_error lines e :
  invert lines = inl e → exn_cls e = ValueError ∨ exn_cls e = StopIteration.
Proof.
  unfold invert. destruct lines as [|header data]; [intros [= <-]; by right|].
  rewrite scan_parse_lines.
  destruct (parse_lines data) as [e'|recs] eqn:Hparse; [|done].
  intros [= <-]. left. by eapply parse_lines_error.
Qed.

(** The exceptions of the scan: the unpacking, [next] on a file without
    lines, the decoder. *)
Lemma rescan_error fs text e :
  rescan fs text = inl e →
  (∃ n, n ≠ 3 ∧ e = unpack_error n) ∨
  exn_cls e = StopIteration ∨ exn_cls e = UnicodeDecodeError.
Proof.
  unfold rescan.
  destruct (decode_text fs text) as [text'|delivered message].
  - unfold invert. destruct (readlines text') as [|header data]; [intros [= <-]; auto|].
    rewrite scan_parse_lines.
    destruct (parse_lines data) as [e'|recs] eqn:Hparse; intros [= <-].
    left. by eapply parse_lines_unpack_error.
  - unfold invert_file. destruct delivered as [|header data]; [intros [= <-]; auto|].
    rewrite scan_parse_lines.
    destruct (parse_lines data) as [e'|recs] eqn:Hparse; intros [= <-]; [|auto].
    left. by eapply parse_lines_unpack_error.
Qed.

(** An index the scan of a file ends with is the index of the lines it has
    read. *)
Lemma rescan_index fs text d :
  rescan fs text = inr d → ∃ content, invert (readlines content) = inr d.
Proof.
  unfold rescan.
  destruct (decode_text fs text) as [text'|delivered message]; [by eexists|].
  unfold invert_file. destruct delivered as [|header data]; [done|].
  by destruct (scan ∅ data).
Qed.

End handler_facts.

(** * The index during the scan *)

Section soundness.

Variable all_lines : list string.

Lemma sound_empty : sound all_lines ∅.
Proof. intros k ids. by rewrite lookup_empty. Qed.

Lemma sound_step d line c name subunits t :
  sound all_lines d →
  line ∈ all_lines →
  Str.split TAB (Str.strip line) = [c; name; subunits] →
  t ∈ subunits_of subunits →
  sound all_lines (record_subunit c d t).
Proof.
  intros Hd Hline Hsplit Ht k ids. rewrite record_subunit_lookup.
  case_decide as Htk; cbn [extend]; [subst k|by apply Hd].
  intros [= <-]. split; [by destruct (default [] (d !! t))|].
  intros c' [Hold|Hnew%list_elem_of_singleton]%elem_of_app.
  - destruct (d !! t) as [old|] eqn:Hlook; [|by apply elem_of_nil in Hold].
    by apply (Hd t old Hlook).
  - subst c'. by exists line, name, subunits.
Qed.

Lemma states_line_sound d line c name subunits tokens :
  sound all_lines d →
  line ∈ all_lines →
  Str.split TAB (Str.strip line) = [c; name; subunits] →
  (∀ t, t ∈ tokens → t ∈ subunits_of subunits) →
  Forall (sound all_lines) (states_line c d tokens) ∧
  sound all_lines (foldl (record_subunit c) d tokens).
Proof.
  intros Hd Hline Hsplit. revert d Hd.
  induction tokens as [|t tokens IH]; intros d Hd Htokens; [by split|].
  assert (sound all_lines (record_subunit c d t)) as Hstep.
  { eapply sound_step; [done..|]. apply Htokens. left. }
  destruct (IH _ Hstep) as [Hstates Hlast]; [intros t' Ht'; apply Htokens; by right|].
  split; [by constructor|done].
Qed.

Lemma scan_states_sound lines d :
  (∀ l, l ∈ lines → l ∈ all_lines) →
  sound all_lines d →
  Forall (sound all_lines) (scan_states d lines).
Proof.
  revert d. induction lines as [|l lines IH]; intros d Hsub Hd; [constructor|].
  cbn [scan_states]. destruct (parse_line l) as [e|[c subunits]] eqn:Hl; [constructor|].
  destruct (parse_line_inv _ _ _ Hl) as [name Hsplit].
  destruct (states_line_sound d l c name subunits (subunits_of subunits))
    as [Hstates Hlast]; [done|apply Hsub; left|done|done|].
  apply Forall_app. split; [done|].
  apply IH; [|done]. intros l' Hl'. apply Hsub. by right.
Qed.

Lemma foldl_in_states c d tokens :
  foldl (record_subunit c) d tokens ∈ d :: states_line c d tokens.
Proof.
  revert d. induction tokens as [|t tokens IH]; intros d; [left|].
  cbn [foldl states_line]. right. apply IH.
Qed.

Lemma scan_in_states d0 lines d :
  scan d0 lines = inr d → d ∈ d0 :: scan_states d0 lines.
Proof.
  revert d0. induction lines as [|l lines IH]; intros d0.
  - intros [= <-]. left.
  - cbn [scan scan_states]. unfold scan_line.
    destruct (parse_line l) as [e|[c subunits]]; [done|].
    intros Hscan%IH.
    pose proof (foldl_in_states c d0 (subunits_of subunits)) as Hfold.
    apply elem_of_cons in Hscan as [->|Hscan].
    + apply elem_of_cons in Hfold as [->|Hfold]; [left|].
      right. apply elem_of_app. by left.
    + right. apply elem_of_app. by right.
Qed.

End soundness.

(** * The inversion on readable rows *)

Section inversion_facts.

Import StrFacts.

Lemma translate_newlines_app a b :
  Str.any (is_char CR) a = false →
  translate_newlines (a +:+ b) = a +:+ translate_newlines b.
Proof.
  induction a as [|c a IH]; [done|].
  cbn [Str.any]. intros [Hc Ha]%orb_false_iff. apply bool_decide_eq_false in Hc.
  rewrite !app_cons. cbn [translate_newlines]. rewrite decide_False by done.
  by rewrite IH.
Qed.

Lemma readlines_sma_header rest :
  readlines (sma_header +:+ rest) = sma_header :: split_lines (translate_newlines rest).
Proof.
  unfold readlines. rewrite translate_newlines_app by done.
  change sma_header with
    (("complex_id" +:+ String TAB "complex_name" +:+ String TAB "subunits_uniprot_id")
       +:+ String LF "").
  by rewrite app_assoc, (app_cons LF ""), app_nil_l, split_lines_app.
Qed.

Lemma double_quotes_any p s :
  Str.any p s = false → Str.any p (double_quotes s) = false.
Proof.
  induction s as [|c s IH]; [done|]. cbn [Str.any double_quotes].
  intros [Hc Hs]%orb_false_iff. case_decide as Hq.
  - subst c. cbn [Str.any]. by rewrite Hc, (IH Hs).
  - cbn [Str.any]. by rewrite Hc, (IH Hs).
Qed.

Lemma csv_field_free c s :
  c ≠ DQUOTE → Str.any (is_char c) s = false → Str.any (is_char c) (csv_field s) = false.
Proof.
  intros Hc Hs. unfold csv_field. destruct (Str.any needs_quote s); [|done].
  rewrite any_app, any_is_char_single, orb_false_r by done.
  cbn [Str.any]. rewrite (double_quotes_any _ _ Hs), orb_false_r.
  apply bool_decide_eq_false. congruence.
Qed.

Lemma csv_record_readable cid name subs :
  plain cid → plain subs →
  csv_record [cid; name; subs] = raw_record [cid; csv_field name; subs].
Proof.
  intros Hcid Hsubs. unfold csv_record, raw_record.
  cbn [fmap list_fmap]. rewrite (csv_field_plain cid), (csv_field_plain subs) by done.
  by destruct cid.
Qed.

Lemma parse_line_record cid mid subs :
  plain cid → Str.any (is_char TAB) mid = false → plain subs →
  cid ≠ "" → Str.lstrip cid = cid → Str.strip subs ≠ "" →
  parse_line (raw_record [cid; mid; subs]) = inr (cid, Str.rstrip subs).
Proof.
  intros Hcid Hmid Hsubs Hne Hl Hs.
  unfold parse_line, Str.strip. rewrite raw_record_3.
  rewrite lstrip_app_id by done.
  assert (Str.rstrip (subs +:+ String LF "") = Str.rstrip subs) as Hr
    by (by apply rstrip_app_l).
  apply strip_not_nil_rstrip in Hs.
  replace (cid +:+ String TAB (mid +:+ String TAB (subs +:+ String LF "")))
    with ((cid +:+ String TAB (mid +:+ String TAB "")) +:+ (subs +:+ String LF ""))
    by (by rewrite !app_assoc, !app_cons, !app_assoc, !app_cons, !app_nil_l).
  rewrite rstrip_app_r by (by rewrite Hr). rewrite Hr.
  rewrite !app_assoc, !app_cons, !app_assoc, !app_cons, !app_nil_l.
  rewrite split_app by (by apply plain_no_char).
  rewrite split_app by done.
  rewrite split_free; [done|]. by apply rstrip_any, plain_no_char.
Qed.

Variable df : DataFrame.

Lemma postings_rstrip (l : list (list cell)) k :
  postings ((λ row, (complex_id_of df row, Str.rstrip (subunits_field_of df row))) <$> l) k =
  postings (record_of df <$> l) k.
Proof.
  unfold postings. induction l as [|row l IH]; [done|].
  cbn [fmap list_fmap mbind list_bind]. f_equal; [|done].
  unfold hits, record_of. cbn [fst snd]. by rewrite subunits_of_rstrip.
Qed.

(** The line stage 2 writes for a readable row. *)
Lemma readable_row_line row :
  readable_row df row →
  csv_record (text_of_cell <$> projection df row) =
    raw_record [complex_id_of df row; csv_field (complex_name_of df row);
                subunits_field_of df row] ∧
  parse_line (raw_record [complex_id_of df row; csv_field (complex_name_of df row);
                          subunits_field_of df row]) =
    inr (complex_id_of df row, Str.rstrip (subunits_field_of df row)) ∧
  ∀ c, c = LF ∨ c = CR →
    Str.any (is_char c)
      (Str.join (String TAB "")
         [complex_id_of df row; csv_field (complex_name_of df row);
          subunits_field_of df row]) = false.
Proof.
  intros (Hcid & (Hn1 & Hn2 & Hn3) & Hsubs & Hne & Hl & Hs).
  split; [by apply csv_record_readable|]. split.
  - apply parse_line_record; try done. by apply csv_field_free.
  - intros c Hc. apply any_join.
    + apply any_is_char_single. destruct Hc as [-> | ->]; done.
    + repeat constructor.
      * apply plain_no_char; [|done]. destruct Hc as [-> | ->]; done.
      * apply csv_field_free; destruct Hc as [-> | ->]; done.
      * apply plain_no_char; [|done]. destruct Hc as [-> | ->]; done.
Qed.

Lemma data_lines_readable :
  Forall (readable_row df) (retained df) →
  data_lines (intermediate_text df) =
    (λ row, raw_record [complex_id_of df row; csv_field (complex_name_of df row);
                        subunits_field_of df row]) <$> retained df.
Proof.
  intros Hrows. unfold data_lines, intermediate_text, csv_text. cbn [columns rows].
  rewrite csv_record_sma_columns, readlines_sma_header. cbn [tail].
  rewrite <-list_fmap_compose.
  assert ((λ row, csv_record (text_of_cell <$> row)) ∘ projection df <$> retained df =
          (λ body, body +:+ String LF "") <$>
            ((λ row, Str.join (String TAB "")
                       [complex_id_of df row; csv_field (complex_name_of df row);
                        subunits_field_of df row]) <$> retained df)) as ->.
  { rewrite <-list_fmap_compose. apply Forall_fmap_ext_1.
    eapply Forall_impl; [done|]. intros row Hrow. unfold compose.
    by destruct (readable_row_line row Hrow) as [-> _]. }
  assert (∀ c, c = LF ∨ c = CR →
    Forall (λ body, Str.any (is_char c) body = false)
      ((λ row, Str.join (String TAB "")
                 [complex_id_of df row; csv_field (complex_name_of df row);
                  subunits_field_of df row]) <$> retained df)) as Hbodies.
  { intros c Hc. apply Forall_fmap. eapply Forall_impl; [done|].
    intros row Hrow. unfold compose.
    destruct (readable_row_line row Hrow) as (_ & _ & Hfree). by apply Hfree. }
  rewrite translate_newlines_id.
  - rewrite split_lines_concat by (apply Hbodies; by left).
    by rewrite <-list_fmap_compose.
  - apply any_concat, Forall_fmap.
    eapply Forall_impl; [apply (Hbodies CR); by right|].
    intros body Hbody. unfold compose. by rewrite any_app, Hbody.
Qed.

Lemma parse_data_lines_readable :
  Forall (readable_row df) (retained df) →
  parse_lines (data_lines (intermediate_text df)) =
    inr ((λ row, (complex_id_of df row, Str.rstrip (subunits_field_of df row)))
           <$> retained df).
Proof.
  intros Hrows. rewrite data_lines_readable by done.
  induction Hrows as [|row l Hrow _ IH]; [done|].
  cbn [fmap list_fmap parse_lines].
  destruct (readable_row_line row Hrow) as (_ & -> & _).
  change (list_fmap _ _ ?f l) with (f <$> l). by rewrite IH.
Qed.

Lemma invert_intermediate_text :
  invert (readlines (intermediate_text df)) = scan ∅ (data_lines (intermediate_text df)).
Proof.
  unfold data_lines, intermediate_text, csv_text. cbn [columns rows].
  by rewrite csv_record_sma_columns, readlines_sma_header.
Qed.

Lemma invert_readable :
  Forall (readable_row df) (retained df) →
  ∃ d, invert (readlines (intermediate_text df)) = inr d ∧
       ∀ k, d !! k = match postings (record_of df <$> retained df) k with
                     | [] => None
                     | ids => Some ids
                     end.
Proof.
  intros Hrows. rewrite invert_intermediate_text, scan_parse_lines.
  rewrite parse_data_lines_readable by done.
  eexists. split; [reflexivity|]. intros k.
  by rewrite build_empty_lookup, postings_rstrip.
Qed.

End inversion_facts.

Section counting_facts.

Lemma filter_const_fmap {A} (x c : string) (l : list A) :
  filter (λ y, y = c) ((λ _, x) <$> l) = if decide (x = c) then (λ _, x) <$> l else [].
Proof.
  induction l as [|a l IH]; [by case_decide|].
  cbn [fmap list_fmap]. rewrite filter_cons, IH. by case_decide.
Qed.

Lemma count_postings recs k c :
  length (filter (λ x, x = c) (postings recs k)) = occurrences recs c k.
Proof.
  unfold postings, occurrences. induction recs as [|r recs IH]; [done|].
  cbn [mbind list_bind]. rewrite filter_app, length_app, IH. clear IH.
  unfold hits. rewrite filter_const_fmap, (filter_cons (λ r, r.1 = c)).
  case_decide.
  - cbn [mbind list_bind]. by rewrite filter_app, length_app, length_fmap.
  - done.
Qed.

Lemma length_postings recs k :
  length (postings recs k) = total_occurrences recs k.
Proof.
  unfold postings, total_occurrences. induction recs as [|r recs IH]; [done|].
  cbn [mbind list_bind]. rewrite filter_app, !length_app, IH.
  unfold hits. by rewrite length_fmap.
Qed.

Lemma postings_is_Some recs k :
  is_Some (match postings recs k with [] => None | ids => Some ids end) ↔
  ∃ r, r ∈ recs ∧ k ∈ subunits_of r.2.
Proof.
  split.
  - destruct (postings recs k) as [|c ids] eqn:Hp; [by intros [? ?]|]. intros _.
    assert (c ∈ postings recs k) as (r & ? & _ & ?)%elem_of_postings
      by (rewrite Hp; left).
    eauto.
  - intros (r & Hr & Hk).
    assert (r.1 ∈ postings recs k) as Hin by (apply elem_of_postings; eauto).
    destruct (postings recs k); [by apply elem_of_nil in Hin|]. by eexists.
Qed.

End counting_facts.

(** * Outcomes of the run *)

Section outcome_facts.

Variable read_csv : string → result DataFrame.
Variable not_in_index : list string → string.

Lemma lookup_write_file path text fs :
  files (write_file path text fs) !! path = Some text.
Proof. unfold write_file. cbn [files]. by rewrite lookup_insert_eq. Qed.

Lemma lookup_write_file_ne path path' text fs :
  path ≠ path' → files (write_file path text fs) !! path' = files fs !! path'.
Proof. intros Hne. unfold write_file. cbn [files]. by rewrite lookup_insert_ne. Qed.

(** What is at the intermediate path when the run ends, given that the
    input has the four columns and the path can be written. *)
Lemma intermediate_file fs input_file output_sma_file output_complexes_file text df :
  files fs !! input_file = Some text →
  read_csv text = inr df →
  has_required_columns df →
  output_sma_file ∉ unwritable fs →
  output_sma_file ≠ output_complexes_file →
  files (process_corum_data read_csv not_in_index
           input_file output_sma_file output_complexes_file fs).2 !! output_sma_file =
    Some (intermediate_text df).
Proof.
  intros Hin Hread Hcols Hw Hne.
  rewrite process_cases, Hin, Hread, (select_human_ok _ _ Hcols).
  rewrite decide_False by done. cbn zeta. fold (retained df) (intermediate_text df).
  destruct (rescan _ _) as [e|d]; cbn [snd].
  - apply lookup_write_file.
  - case_decide; cbn [snd]; unfold after_stage3, after_stage2.
    + apply lookup_write_file.
    + rewrite lookup_write_file_ne by done. apply lookup_write_file.
Qed.

(** A run that prints nothing has written the final file from an index the
    scan produced. *)
Lemma silent_run_inv fs input_file output_sma_file output_complexes_file :
  (process_corum_data read_csv not_in_index
     input_file output_sma_file output_complexes_file fs).1 = Returned [] →
  ∃ content d,
    invert (readlines content) = inr d ∧
    files (process_corum_data read_csv not_in_index
             input_file output_sma_file output_complexes_file fs).2
      !! output_complexes_file = Some (complexes_text d).
Proof.
  rewrite process_cases.
  destruct (files fs !! input_file) as [text|]; [|by intros ?%handle_not_silent].
  destruct (read_csv text) as [e|df]; [by intros ?%handle_not_silent|].
  destruct (select_human not_in_index df) as [e|sma_df]; [by intros ?%handle_not_silent|].
  case_decide; [by intros ?%handle_not_silent|]. cbn zeta.
  destruct (rescan fs (csv_text sma_df)) as [e|d] eqn:Hinv;
    [by intros ?%handle_not_silent|].
  case_decide; [by intros ?%handle_not_silent|]. intros _.
  destruct (rescan_index _ _ _ Hinv) as [content Hcontent].
  exists content, d. split; [done|].
  cbn [snd]. apply lookup_write_file.
Qed.

Lemma select_human_error df e :
  select_human not_in_index df = inl e → exn_cls e = KeyError.
Proof.
  unfold select_human, getitem, getitem_list.
  destruct (index_of "organism" (columns df)); [|by intros [= <-]].
  cbn [columns]. destruct (positions_of (columns df) sma_columns); [done|].
  by intros [= <-].
Qed.

(** Every exception that leaves lines 26-57 derives from [Exception], when
    those of the parser do. *)
Lemma body_raises_Exception fs input_file output_sma_file output_complexes_file e :
  (∀ text e, read_csv text = inl e → issubclass (exn_cls e) Exception = true) →
  (process_body read_csv not_in_index
     input_file output_sma_file output_complexes_file fs).1 = inl e →
  issubclass (exn_cls e) Exception = true.
Proof.
  intros Hparser. rewrite body_cases.
  destruct (files fs !! input_file) as [text|]; [|by intros [= <-]].
  destruct (read_csv text) as [e'|df] eqn:Hread; [intros [= <-]; by eapply Hparser|].
  destruct (select_human not_in_index df) as [e'|sma_df] eqn:Hsel.
  { intros [= <-]. by rewrite (select_human_error _ _ Hsel). }
  case_decide; [intros [= <-]; apply raise_os_Exception|]. cbn zeta.
  destruct (rescan fs (csv_text sma_df)) as [e'|d] eqn:Hinv.
  { intros [= <-]. by destruct (rescan_error _ _ _ Hinv) as [(n & _ & ->) | [-> | ->]]. }
  case_decide; [intros [= <-]; apply raise_os_Exception|done].
Qed.

(** The exceptions that leave lines 26-57, stage by stage. *)
Lemma body_raises fs input_file output_sma_file output_complexes_file e :
  (process_body read_csv not_in_index
     input_file output_sma_file output_complexes_file fs).1 = inl e →
  files fs !! input_file = None ∧ e = no_such_file input_file ∨
  (∃ text, files fs !! input_file = Some text ∧ read_csv text = inl e) ∨
  exn_cls e = KeyError ∨
  output_sma_file ∈ unwritable fs ∧ e = raise_os (to_csv_error fs output_sma_file) ∨
  (∃ n, n ≠ 3 ∧ e = unpack_error n) ∨
  exn_cls e = StopIteration ∨
  exn_cls e = UnicodeDecodeError ∨
  output_complexes_file ∈ unwritable fs ∧
    e = raise_os (open_error fs output_complexes_file).
Proof.
  rewrite body_cases.
  destruct (files fs !! input_file) as [text|]; [|intros [= <-]; by left].
  destruct (read_csv text) as [e'|df] eqn:Hread; [intros [= <-]; right; left; eauto|].
  destruct (select_human not_in_index df) as [e'|sma_df] eqn:Hsel.
  { intros [= <-]. right. right. left. by eapply select_human_error. }
  case_decide; [intros [= <-]; do 3 right; by left|]. cbn zeta.
  destruct (rescan fs (csv_text sma_df)) as [e'|d] eqn:Hinv.
  { intros [= <-]. do 4 right.
    destruct (rescan_error _ _ _ Hinv) as [? | [? | ?]]; auto. }
  case_decide; [intros [= <-]; do 7 right; done|done].
Qed.

Lemma run_returns fs input_file output_sma_file output_complexes_file :
  (∀ text e, read_csv text = inl e → issubclass (exn_cls e) Exception = true) →
  ∃ printed,
    (process_corum_data read_csv not_in_index
       input_file output_sma_file output_complexes_file fs).1 = Returned printed ∧
    is_diagnostic input_file printed.
Proof.
  intros Hparser.
  pose proof (body_raises_Exception fs input_file output_sma_file output_complexes_file)
    as Hbody.
  unfold process_corum_data.
  destruct (process_body _ _ _ _ _ fs) as [[e|[]] fs']; cbn [fst] in *.
  - destruct (handle_Exception input_file e (Hbody e Hparser eq_refl))
      as (line & -> & Hline).
    eexists. split; [reflexivity|]. unfold is_diagnostic.
    destruct Hline as [-> | [-> | ->]]; eauto.
  - exists []. split; [done|]. by left.
Qed.

Lemma after_stage2_idemp sma_df path fs :
  after_stage2 sma_df path (after_stage2 sma_df path fs) = after_stage2 sma_df path fs.
Proof.
  unfold after_stage2, write_file. cbn [files unwritable open_error to_csv_error locale_decode].
  by rewrite insert_insert_eq.
Qed.

Lemma after_stages_idemp sma_df d sma out fs :
  after_stage3 d out (after_stage2 sma_df sma
    (after_stage3 d out (after_stage2 sma_df sma fs))) =
  after_stage3 d out (after_stage2 sma_df sma fs).
Proof.
  unfold after_stage3, after_stage2, write_file.
  cbn [files unwritable open_error to_csv_error locale_decode]. f_equal.
  apply map_eq. intros k. rewrite !lookup_insert. by repeat case_decide.
Qed.

End outcome_facts.

(** * The intermediate file as a reader sees it *)

Section reader_facts.

Import StrFacts.

Lemma index_of_first_position name cols i :
  index_of name cols = Some i ↔ first_position name cols i.
Proof.
  revert i. induction cols as [|x cols IH]; intros i.
  - split; [done|]. by intros [? _].
  - cbn [index_of]. case_decide as Hx.
    + subst x. split.
      * intros [= <-]. split; [done|]. intros j Hj. lia.
      * intros [Hi Hfirst]. destruct i as [|i]; [done|].
        destruct (Hfirst 0%nat); [lia|done].
    + split.
      * intros Hi. destruct (index_of name cols) as [i'|]; [|done].
        injection Hi as <-. destruct (proj1 (IH i') eq_refl) as [H1 H2].
        split; [done|]. intros [|j] Hj; cbn; [congruence|]. apply H2. lia.
      * intros [Hi Hfirst]. destruct i as [|i]; cbn in Hi; [congruence|].
        rewrite (proj2 (IH i)); [done|]. split; [done|].
        intros j Hj. apply (Hfirst (S j)). lia.
Qed.

Lemma first_position_exists name cols :
  name ∈ cols → ∃ i, first_position name cols i.
Proof.
  intros [i Hi]%index_of_elem_of. exists i. by apply index_of_first_position.
Qed.

Lemma cell_at_cell_of i row : cell_at i row = cell_of row i.
Proof. unfold cell_at, cell_of. apply nth_lookup. Qed.

Lemma text_of_cell_shown c : text_of_cell c = shown c.
Proof. by destruct c. Qed.

Lemma field_first_position df name i row :
  first_position name (columns df) i → field df name row = cell_of row i.
Proof.
  intros Hi%index_of_first_position. unfold field. rewrite Hi. apply cell_at_cell_of.
Qed.

Lemma cell_of_Val row i s : cell_of row i = Val s ↔ row !! i = Some (Val s).
Proof.
  unfold cell_of. destruct (row !! i) as [c|]; cbn; [|done].
  split; congruence.
Qed.

(** ** Quoting *)

Lemma double_quotes_join_split s :
  double_quotes s = Str.join (String DQUOTE (String DQUOTE "")) (Str.split DQUOTE s).
Proof.
  induction s as [|c s IH]; [done|]. cbn [double_quotes Str.split].
  destruct (Str.split DQUOTE s) as [|h t] eqn:Hs; [by apply split_not_nil in Hs|].
  case_decide as Hc.
  - rewrite IH. cbn [Str.join]. by rewrite app_nil_l.
  - rewrite IH. cbn [Str.join]. by destruct t.
Qed.

Lemma needs_quote_verbatim s : Str.any needs_quote s = false ↔ verbatim s.
Proof.
  unfold verbatim. induction s as [|c s IH]; [done|]. cbn [Str.any].
  rewrite !orb_false_iff, IH. unfold needs_quote, is_char.
  rewrite !bool_decide_eq_false. tauto.
Qed.

Lemma csv_field_written s : csv_field s = written s.
Proof.
  unfold csv_field, written, in_quotes. rewrite <-double_quotes_join_split.
  destruct (Str.any needs_quote s) eqn:Hs.
  - rewrite decide_False; [done|]. rewrite <-needs_quote_verbatim. congruence.
  - rewrite decide_True; [done|]. by apply needs_quote_verbatim.
Qed.

Lemma csv_record_3 a b c :
  csv_record [a; b; c] = raw_record [written a; written b; written c].
Proof.
  unfold csv_record, raw_record. cbn [fmap list_fmap].
  rewrite !csv_field_written. by destruct a.
Qed.

Lemma length_app a b : String.length (a +:+ b) = (String.length a + String.length b)%nat.
Proof. induction a as [|c a IH]; [done|]. rewrite app_cons. cbn. by rewrite IH. Qed.

Lemma length_double_quotes s : (String.length s ≤ String.length (double_quotes s))%nat.
Proof.
  induction s as [|c s IH]; [done|]. cbn [double_quotes].
  case_decide; cbn [String.length]; lia.
Qed.

Lemma length_written s :
  (String.length s ≤ String.length (written s))%nat ∧
  (¬ verbatim s → String.length s < String.length (written s))%nat.
Proof.
  unfold written. case_decide as Hs; [split; [lia|done]|].
  unfold in_quotes. rewrite <-double_quotes_join_split.
  rewrite app_cons. cbn [String.length]. rewrite length_app. cbn [String.length].
  pose proof (length_double_quotes s). split; [lia|]. intros _. lia.
Qed.

Lemma length_raw_record_3 a b c :
  String.length (raw_record [a; b; c]) =
    (String.length a + String.length b + String.length c + 3)%nat.
Proof.
  rewrite raw_record_3.
  do 3 (rewrite length_app; cbn [String.length]). lia.
Qed.

Lemma written_verbatim s : verbatim s → written s = s.
Proof. intros Hs. unfold written. by rewrite decide_True. Qed.

(** A record of three fields is written as it is exactly when each of its
    fields can stand in the line as it is. *)
Lemma raw_record_written a b c :
  raw_record [written a; written b; written c] = raw_record [a; b; c] ↔
  verbatim a ∧ verbatim b ∧ verbatim c.
Proof.
  split.
  - intros Heq%(f_equal String.length). rewrite !length_raw_record_3 in Heq.
    destruct (length_written a) as [Ha Ha'], (length_written b) as [Hb Hb'],
      (length_written c) as [Hc Hc'].
    destruct (decide (verbatim a)) as [?|Hna]; [|specialize (Ha' Hna); lia].
    destruct (decide (verbatim b)) as [?|Hnb]; [|specialize (Hb' Hnb); lia].
    destruct (decide (verbatim c)) as [?|Hnc]; [|specialize (Hc' Hnc); lia].
    done.
  - intros (Ha & Hb & Hc). by rewrite !written_verbatim.
Qed.

(** ** Reading back what the writer wrote *)

Lemma push_field_then c f records :
  push c (field_then f records) = field_then (String c f) records.
Proof. by destruct records. Qed.

Lemma read_in_field_tab f rest :
  Str.any (is_char TAB) f = false → Str.any (is_char LF) f = false →
  read_from InField (f +:+ String TAB rest) = field_then f (read_from FieldStart rest).
Proof.
  induction f as [|c f IH].
  - intros _ _. rewrite app_nil_l. cbn [read_from]. by rewrite decide_True.
  - cbn [Str.any]. intros [Hc Hf]%orb_false_iff [Hc' Hf']%orb_false_iff.
    apply bool_decide_eq_false in Hc, Hc'.
    rewrite app_cons. cbn [read_from]. rewrite !decide_False by done.
    rewrite (IH Hf Hf'). case_decide; apply push_field_then.
Qed.

Lemma read_in_field_lf f rest :
  Str.any (is_char TAB) f = false → Str.any (is_char LF) f = false →
  read_from InField (f +:+ String LF rest) = record_then f (read_from RecordStart rest).
Proof.
  induction f as [|c f IH].
  - intros _ _. rewrite app_nil_l. cbn [read_from].
    rewrite decide_False by done. by rewrite decide_True.
  - cbn [Str.any]. intros [Hc Hf]%orb_false_iff [Hc' Hf']%orb_false_iff.
    apply bool_decide_eq_false in Hc, Hc'.
    rewrite app_cons. cbn [read_from]. rewrite !decide_False by done.
    rewrite (IH Hf Hf'). by case_decide.
Qed.

Lemma read_in_quotes_tab f rest :
  read_from InQuotes (double_quotes f +:+ String DQUOTE (String TAB rest)) =
    field_then f (read_from FieldStart rest).
Proof.
  induction f as [|c f IH].
  - rewrite app_nil_l. cbn [read_from double_quotes].
    rewrite decide_True by done. by rewrite decide_True.
  - cbn [double_quotes]. case_decide as Hc.
    + subst c. rewrite !app_cons. cbn [read_from].
      rewrite decide_True by done. rewrite !decide_False by done.
      rewrite decide_True by done. rewrite IH. apply push_field_then.
    + rewrite app_cons. cbn [read_from]. rewrite decide_False by done.
      rewrite IH. apply push_field_then.
Qed.

Lemma read_in_quotes_lf f rest :
  read_from InQuotes (double_quotes f +:+ String DQUOTE (String LF rest)) =
    record_then f (read_from RecordStart rest).
Proof.
  induction f as [|c f IH].
  - rewrite app_nil_l. cbn [read_from double_quotes].
    rewrite decide_True by done. rewrite decide_False by done. by rewrite decide_True.
  - cbn [double_quotes]. case_decide as Hc.
    + subst c. rewrite !app_cons. cbn [read_from].
      rewrite decide_True by done. rewrite !decide_False by done.
      rewrite decide_True by done. by rewrite IH.
    + rewrite app_cons. cbn [read_from]. rewrite decide_False by done.
      by rewrite IH.
Qed.

Lemma read_written_tab st f rest :
  st = RecordStart ∨ st = FieldStart →
  read_from st (written f +:+ String TAB rest) = field_then f (read_from FieldStart rest).
Proof.
  intros Hst. unfold written. case_decide as Hf.
  - destruct Hf as (Htab & Hq & Hlf). destruct f as [|c f].
    + rewrite app_nil_l. destruct Hst as [-> | ->]; cbn [read_from];
        by rewrite decide_True.
    + cbn [Str.any] in *.
      apply orb_false_iff in Htab as [Hc1 Htab], Hq as [Hc2 Hq], Hlf as [Hc3 Hlf].
      apply bool_decide_eq_false in Hc1, Hc2, Hc3.
      rewrite app_cons.
      destruct Hst as [-> | ->]; cbn [read_from]; rewrite !decide_False by done;
        rewrite read_in_field_tab by done; apply push_field_then.
  - unfold in_quotes. rewrite <-double_quotes_join_split.
    rewrite app_assoc, !app_cons, app_nil_l.
    destruct Hst as [-> | ->]; cbn [read_from]; rewrite !decide_False by done;
      rewrite decide_True by done; apply read_in_quotes_tab.
Qed.

Lemma read_written_lf st f rest :
  st = RecordStart ∨ st = FieldStart →
  read_from st (written f +:+ String LF rest) = record_then f (read_from RecordStart rest).
Proof.
  intros Hst. unfold written. case_decide as Hf.
  - destruct Hf as (Htab & Hq & Hlf). destruct f as [|c f].
    + rewrite app_nil_l. destruct Hst as [-> | ->]; cbn [read_from];
        rewrite decide_False by done; by rewrite decide_True.
    + cbn [Str.any] in *.
      apply orb_false_iff in Htab as [Hc1 Htab], Hq as [Hc2 Hq], Hlf as [Hc3 Hlf].
      apply bool_decide_eq_false in Hc1, Hc2, Hc3.
      rewrite app_cons.
      destruct Hst as [-> | ->]; cbn [read_from]; rewrite !decide_False by done;
        by rewrite read_in_field_lf by done.
  - unfold in_quotes. rewrite <-double_quotes_join_split.
    rewrite app_assoc, !app_cons, app_nil_l.
    destruct Hst as [-> | ->]; cbn [read_from]; rewrite !decide_False by done;
      rewrite decide_True by done; apply read_in_quotes_lf.
Qed.

Lemma read_csv_record_3 a b c rest :
  read_from RecordStart (csv_record [a; b; c] +:+ rest) =
    [a; b; c] :: read_from RecordStart rest.
Proof.
  rewrite csv_record_3, raw_record_3.
  rewrite !app_assoc, !app_cons, !app_assoc, !app_cons, !app_assoc, !app_cons, app_nil_l.
  rewrite read_written_tab by auto. rewrite read_written_tab by auto.
  by rewrite read_written_lf by auto.
Qed.

Lemma read_csv_records (records : list (list string)) :
  Forall (λ record, length record = 3) records →
  read_from RecordStart (Str.concat (csv_record <$> records)) = records.
Proof.
  induction 1 as [|record records Hlen _ IH]; [done|].
  destruct record as [|a [|b [|c [|x t]]]]; try done.
  cbn [fmap list_fmap Str.concat]. by rewrite read_csv_record_3, IH.
Qed.

(** The reader finds in a table of three columns what the writer was given:
    the labels, then the texts of each row. *)
Lemma read_tsv_csv_text (table : list (list cell)) :
  Forall (λ row, length row = 3) table →
  read_tsv (csv_text (Frame sma_columns table)) =
    sma_columns :: ((λ row : list cell, text_of_cell <$> row) <$> table).
Proof.
  intros Hlen. unfold read_tsv, csv_text. cbn [columns rows].
  unfold sma_columns at 1. rewrite read_csv_record_3. f_equal.
  replace ((λ row : list cell, csv_record (text_of_cell <$> row)) <$> table)
    with (csv_record <$> ((λ row : list cell, text_of_cell <$> row) <$> table))
    by (by rewrite <-list_fmap_compose).
  apply read_csv_records, Forall_fmap. eapply Forall_impl; [done|].
  intros row Hrow. cbn. by rewrite length_fmap.
Qed.

Lemma required_positions df :
  has_required_columns df →
  ∃ organism complex_id complex_name subunits,
    first_position "organism" (columns df) organism ∧
    first_position "complex_id" (columns df) complex_id ∧
    first_position "complex_name" (columns df) complex_name ∧
    first_position "subunits_uniprot_id" (columns df) subunits.
Proof.
  unfold has_required_columns, required_columns, sma_columns. intros Hcols.
  repeat (apply Forall_cons in Hcols as [?%first_position_exists Hcols]).
  destruct H as [io Hio], H0 as [i1 Hi1], H1 as [i2 Hi2], H2 as [i3 Hi3].
  by exists io, i1, i2, i3.
Qed.

(** The rows stage 1 retains are those with "Human" in the organism
    column. *)
Lemma retained_first_position df organism :
  first_position "organism" (columns df) organism →
  retained df = filter (λ row, row !! organism = Some (Val "Human")) (rows df).
Proof.
  intros Ho. unfold retained. apply list_filter_iff. intros row.
  by rewrite (field_first_position df _ _ row Ho), cell_of_Val.
Qed.

(** What a reader finds in the intermediate file. *)
Lemma read_tsv_intermediate_text df organism complex_id complex_name subunits :
  first_position "organism" (columns df) organism →
  first_position "complex_id" (columns df) complex_id →
  first_position "complex_name" (columns df) complex_name →
  first_position "subunits_uniprot_id" (columns df) subunits →
  read_tsv (intermediate_text df) =
    sma_columns ::
      ((λ row, [shown (cell_of row complex_id); shown (cell_of row complex_name);
                shown (cell_of row subunits)]) <$> retained df).
Proof.
  intros Ho H1 H2 H3. unfold intermediate_text.
  rewrite read_tsv_csv_text by (by apply Forall_fmap, Forall_true).
  f_equal. rewrite <-list_fmap_compose. apply list_fmap_ext. intros _ row _.
  unfold compose, projection, sma_columns. cbn [fmap list_fmap].
  rewrite (field_first_position df _ _ row H1), (field_first_position df _ _ row H2),
    (field_first_position df _ _ row H3).
  by destruct (cell_of row complex_id), (cell_of row complex_name), (cell_of row subunits).
Qed.

Lemma rescan_after_stage2 sma_df path fs content :
  rescan (after_stage2 sma_df path fs) content = rescan fs content.
Proof. reflexivity. Qed.

Lemma rescan_after_stage3 d path fs content :
  rescan (after_stage3 d path fs) content = rescan fs content.
Proof. reflexivity. Qed.

End reader_facts.

(** * The properties of the specification *)

Section claims.

Variable read_csv : string → result DataFrame.
Variable not_in_index : list string → string.

(** C1, as amended. Let the input have the four columns, both output paths
    be writable, the intermediate file be read back as it was written, and
    every retained row be readable: its complex id and its subunits field
    hold no TAB, double quote, LF or CR, its complex name no TAB, LF or CR,
    its complex id is not empty and does not start with white space, and its
    subunits field is not all white space. Then the run completes without a
    diagnostic, and the final file is the header line followed by one line
    per key, keys strictly increasing. A string is a key exactly when it is
    a trimmed, non-empty token of the subunits field of some retained row.
    The line of a key holds, joined by "|", one complex id per occurrence of
    the key among the tokens of the retained rows, in the order the rows and
    their tokens are met; so it has as many entries as the key has
    occurrences, and it holds a given complex id as many times as the key
    occurs among the tokens of the retained rows that carry this complex
    id. *)
Theorem inversion_complete fs input_file output_sma_file output_complexes_file text df :
  files fs !! input_file = Some text →
  read_csv text = inr df →
  has_required_columns df →
  output_sma_file ∉ unwritable fs →
  output_complexes_file ∉ unwritable fs →
  reads_back fs (intermediate_text df) →
  Forall (readable_row df) (retained df) →
  let recs := record_of df <$> retained df in
  let result := process_corum_data read_csv not_in_index
                  input_file output_sma_file output_complexes_file fs in
  ∃ keys final,
    result.1 = Returned [] ∧
    files result.2 !! output_complexes_file = Some final ∧
    readlines final = complexes_header :: (final_row recs <$> keys) ∧
    StronglySorted str_lt keys ∧
    (∀ k, k ∈ keys ↔
          ∃ row, row ∈ retained df ∧ k ∈ subunits_of (subunits_field_of df row)) ∧
    (∀ k, length (postings recs k) = total_occurrences recs k) ∧
    (∀ k c, length (filter (λ x, x = c) (postings recs k)) = occurrences recs c k).
Proof.
  intros Hin Hread Hcols Hw Hw' Hback Hrows recs result.
  destruct (invert_readable df Hrows) as (d & Hinv & Hd).
  fold recs in Hd.
  assert (result = (Returned [],
            after_stage3 d output_complexes_file
              (after_stage2 (Frame sma_columns (projection df <$> retained df))
                 output_sma_file fs))) as ->.
  { unfold result. rewrite process_cases, Hin, Hread, (select_human_ok _ _ Hcols).
    rewrite decide_False by done. cbn zeta.
    fold (retained df) (intermediate_text df).
    rewrite (rescan_reads_back _ _ Hback), Hinv.
    by rewrite decide_False. }
  exists (sorted_subunits d), (complexes_text d).
  split; [done|]. split.
  { cbn [snd]. apply lookup_write_file. }
  split.
  { rewrite readlines_complexes_text by (by eapply invert_tidy). f_equal.
    apply list_fmap_ext. intros i k Hk.
    apply list_elem_of_lookup_2, elem_of_sorted_subunits in Hk as [ids Hids].
    unfold complexes_row, final_row. rewrite (lookup_total_correct _ _ _ Hids).
    rewrite Hd in Hids. destruct (postings recs k); [done|]. by injection Hids as <-. }
  split; [apply sorted_subunits_sorted|].
  split; [|split; [intros; apply length_postings|intros; apply count_postings]].
  intros k. rewrite elem_of_sorted_subunits, Hd, postings_is_Some. split.
  - intros (r & Hr & Hk). apply list_elem_of_fmap in Hr as (row & -> & Hrow). eauto.
  - intros (row & Hrow & Hk). exists (record_of df row). split; [|done].
    apply list_elem_of_fmap. eauto.
Qed.

(** C2 (filter correctness). When the input has the four columns and the
    intermediate path can be written, the records a reader finds in the
    intermediate file after the header are, in input order, those of exactly
    the input rows whose cell in the organism column is the string "Human":
    a row is kept if and only if its organism equals "Human" exactly, the
    kept rows form a subsequence of the input rows, and the record of a kept
    row holds the texts of its cells in the columns complex_id, complex_name
    and subunits_uniprot_id. This holds whether or not stage 3 succeeds. *)
Theorem filter_correct fs input_file output_sma_file output_complexes_file text df :
  files fs !! input_file = Some text →
  read_csv text = inr df →
  has_required_columns df →
  output_sma_file ∉ unwritable fs →
  output_sma_file ≠ output_complexes_file →
  ∃ organism complex_id complex_name subunits content kept,
    first_position "organism" (columns df) organism ∧
    first_position "complex_id" (columns df) complex_id ∧
    first_position "complex_name" (columns df) complex_name ∧
    first_position "subunits_uniprot_id" (columns df) subunits ∧
    files (process_corum_data read_csv not_in_index
             input_file output_sma_file output_complexes_file fs).2 !! output_sma_file =
      Some content ∧
    tail (read_tsv content) =
      (λ row, [shown (cell_of row complex_id); shown (cell_of row complex_name);
               shown (cell_of row subunits)]) <$> kept ∧
    kept = filter (λ row, row !! organism = Some (Val "Human")) (rows df) ∧
    kept `sublist_of` rows df ∧
    (∀ row, row ∈ kept ↔ row ∈ rows df ∧ row !! organism = Some (Val "Human")).
Proof.
  intros Hin Hread Hcols Hw Hne.
  destruct (required_positions df Hcols) as (io & i1 & i2 & i3 & Ho & H1 & H2 & H3).
  exists io, i1, i2, i3, (intermediate_text df), (retained df).
  do 4 (split; [done|]).
  split; [by eapply intermediate_file|].
  split; [by rewrite (read_tsv_intermediate_text df io i1 i2 i3)|].
  rewrite (retained_first_position df io Ho).
  split; [done|]. split; [apply sublist_filter|].
  intros row. rewrite list_elem_of_filter. tauto.
Qed.

(** C3 (sort order). Whenever the run completes without a diagnostic, the
    final file it has written starts with the header line, and the first
    fields of its data lines, read top to bottom, are strictly increasing in
    the order of Python strings; in particular no protein identifier keys
    two rows. *)
Theorem final_keys_sorted fs input_file output_sma_file output_complexes_file :
  (process_corum_data read_csv not_in_index
     input_file output_sma_file output_complexes_file fs).1 = Returned [] →
  ∃ final,
    files (process_corum_data read_csv not_in_index
             input_file output_sma_file output_complexes_file fs).2
      !! output_complexes_file = Some final ∧
    head (readlines final) = Some complexes_header ∧
    StronglySorted str_lt (key_of <$> data_lines final) ∧
    NoDup (key_of <$> data_lines final).
Proof.
  intros (content & d & Hinv & Hfile)%silent_run_inv.
  apply invert_tidy in Hinv. exists (complexes_text d).
  rewrite keys_of_complexes_text, readlines_complexes_text by done.
  auto using sorted_subunits_sorted, sorted_subunits_NoDup.
Qed.

(** C6, as amended. The writer drops no record and writes, after the header
    line, one line per record: its three texts (the empty text for a missing
    value), each as it is when it holds no TAB, no double quote and no LF,
    and otherwise between double quotes with every double quote inside
    doubled, joined by TAB and ended by LF. So the line of a record is its
    three texts joined as they are exactly when none of them holds a TAB, a
    double quote or an LF. *)
Theorem writer_verbatim (table : list (list cell)) path fs :
  path ∉ unwritable fs →
  Forall (λ row, length row = 3) table →
  ∃ lines,
    to_csv (Frame sma_columns table) path fs =
      (inr (), write_file path (sma_header +:+ Str.concat lines) fs) ∧
    Forall2 (λ row line,
      line = raw_record ((λ c, written (shown c)) <$> row) ∧
      (line = raw_record (shown <$> row) ↔ Forall (λ c, verbatim (shown c)) row))
      table lines.
Proof.
  clear read_csv not_in_index. intros Hw Hlen.
  exists ((λ row, csv_record (text_of_cell <$> row)) <$> table). split.
  - unfold to_csv. rewrite decide_False by done. reflexivity.
  - apply Forall2_fmap_r, Forall_Forall2_diag. eapply Forall_impl; [done|].
    intros row Hrow. destruct row as [|a [|b [|c [|x t]]]]; try done.
    unfold compose. cbn [fmap list_fmap].
    rewrite (text_of_cell_shown a), (text_of_cell_shown b), (text_of_cell_shown c).
    rewrite csv_record_3.
    split; [done|]. rewrite raw_record_written.
    rewrite !Forall_cons, Forall_nil. tauto.
Qed.

(** C7, as amended. Provided the parser raises only exceptions that derive
    from [Exception], no exception leaves the call: it returns, having
    printed nothing when lines 26-57 ran to their end and exactly one line
    otherwise, and the file system is as the body left it. A missing input
    file gives the message that names the input path, a [ParserError] gives
    the parse message that names the input path, and every other exception
    that is not a [FileNotFoundError] gives "An unexpected error occurred: "
    followed by the text of that exception, whatever the text says. The
    exceptions that leave lines 26-57 are: the [FileNotFoundError] of a
    missing input file, an exception of the parser, the [KeyError] of a
    missing column, the error of [to_csv] for an intermediate path that
    cannot be written, the [ValueError] of a data line without three
    fields, a [StopIteration] or [UnicodeDecodeError] from reading the
    intermediate file, and the error of [open] for a final path that cannot
    be written. *)
Theorem failures_become_diagnostics fs input_file output_sma_file output_complexes_file :
  (∀ text e, read_csv text = inl e → issubclass (exn_cls e) Exception = true) →
  let body := process_body read_csv not_in_index
                input_file output_sma_file output_complexes_file fs in
  ∃ printed,
    process_corum_data read_csv not_in_index
      input_file output_sma_file output_complexes_file fs = (Returned printed, body.2) ∧
    (body.1 = inr () → printed = []) ∧
    (∀ e, body.1 = inl e → ∃ line, printed = [line]) ∧
    (files fs !! input_file = None → printed = [not_found_message input_file]) ∧
    (∀ text e, files fs !! input_file = Some text → read_csv text = inl e →
       exn_cls e = ParserError → printed = [parse_message input_file]) ∧
    (∀ e, body.1 = inl e →
       issubclass (exn_cls e) FileNotFoundError = false →
       issubclass (exn_cls e) ParserError = false →
       printed = [unexpected_message (exn_str e)]) ∧
    (∀ e, body.1 = inl e →
       files fs !! input_file = None ∧ e = no_such_file input_file ∨
       (∃ text, files fs !! input_file = Some text ∧ read_csv text = inl e) ∨
       exn_cls e = KeyError ∨
       output_sma_file ∈ unwritable fs ∧ e = raise_os (to_csv_error fs output_sma_file) ∨
       (∃ n, n ≠ 3 ∧ e = unpack_error n) ∨
       exn_cls e = StopIteration ∨
       exn_cls e = UnicodeDecodeError ∨
       output_complexes_file ∈ unwritable fs ∧
         e = raise_os (open_error fs output_complexes_file)).
Proof.
  intros Hparser body.
  assert (∀ e, body.1 = inl e →
       files fs !! input_file = None ∧ e = no_such_file input_file ∨
       (∃ text, files fs !! input_file = Some text ∧ read_csv text = inl e) ∨
       exn_cls e = KeyError ∨
       output_sma_file ∈ unwritable fs ∧ e = raise_os (to_csv_error fs output_sma_file) ∨
       (∃ n, n ≠ 3 ∧ e = unpack_error n) ∨
       exn_cls e = StopIteration ∨
       exn_cls e = UnicodeDecodeError ∨
       output_complexes_file ∈ unwritable fs ∧
         e = raise_os (open_error fs output_complexes_file)) as Hkinds
    by (intros e; apply body_raises).
  cut (∃ printed,
    process_corum_data read_csv not_in_index
      input_file output_sma_file output_complexes_file fs = (Returned printed, body.2) ∧
    (body.1 = inr () → printed = []) ∧
    (∀ e, body.1 = inl e → ∃ line, printed = [line]) ∧
    (files fs !! input_file = None → printed = [not_found_message input_file]) ∧
    (∀ text e, files fs !! input_file = Some text → read_csv text = inl e →
       exn_cls e = ParserError → printed = [parse_message input_file]) ∧
    (∀ e, body.1 = inl e →
       issubclass (exn_cls e) FileNotFoundError = false →
       issubclass (exn_cls e) ParserError = false →
       printed = [unexpected_message (exn_str e)])).
  { intros (printed & H1 & H2 & H3 & H4 & H5 & H6). exists printed. tauto. }
  clear Hkinds.
  pose proof (body_raises_Exception read_csv not_in_index fs input_file output_sma_file
                output_complexes_file) as Hcaught.
  pose proof (body_cases read_csv not_in_index fs input_file output_sma_file
                output_complexes_file) as Hcases.
  unfold process_corum_data. fold body in Hcaught, Hcases |- *.
  destruct body as [[e|[]] fs'] eqn:Hbody; cbn [fst snd] in *.
  - specialize (Hcaught e Hparser eq_refl).
    exists (match handle input_file e with Returned printed => printed | _ => [] end).
    unfold handle. rewrite Hcaught.
    destruct (issubclass (exn_cls e) FileNotFoundError) eqn:Hfnf;
      [|destruct (issubclass (exn_cls e) ParserError) eqn:Hpe].
    + split; [reflexivity|]. split; [by intros [=]|]. split; [intros ? _; by eexists|].
      split; [done|]. split; [|intros ? [= <-]; congruence].
      intros text e' Hin Hread Hcls. rewrite Hin, Hread in Hcases.
      injection Hcases as -> _. by rewrite Hcls in Hfnf.
    + split; [reflexivity|]. split; [by intros [=]|]. split; [intros ? _; by eexists|].
      split.
      { intros Hin. rewrite Hin in Hcases. injection Hcases as -> _. done. }
      split; [done|]. intros ? [= <-]. congruence.
    + split; [reflexivity|]. split; [by intros [=]|]. split; [intros ? _; by eexists|].
      split.
      { intros Hin. rewrite Hin in Hcases. injection Hcases as -> _. done. }
      split; [|by intros ? [= <-]].
      intros text e' Hin Hread Hcls. rewrite Hin, Hread in Hcases.
      injection Hcases as -> _. by rewrite Hcls in Hpe.
  - exists []. split; [done|]. split; [done|]. split; [by intros ? [=]|]. split.
    { intros Hin. by rewrite Hin in Hcases. }
    split; [|by intros ? [=]]. intros text e Hin Hread _. by rewrite Hin, Hread in Hcases.
Qed.

(** C8 (idempotence). A second run on the file system the first run left
    behind, with the input file still holding what it held, ends with the
    same printed lines and the same file system as the first: the
    intermediate and the final file are rewritten with identical contents. *)
Theorem rerun_is_identical fs input_file output_sma_file output_complexes_file :
  let first := process_corum_data read_csv not_in_index
                 input_file output_sma_file output_complexes_file fs in
  files first.2 !! input_file = files fs !! input_file →
  process_corum_data read_csv not_in_index
    input_file output_sma_file output_complexes_file first.2 = first.
Proof.
  cbn zeta. rewrite (process_cases _ _ fs).
  destruct (files fs !! input_file) as [text|] eqn:Hin.
  2:{ cbn [snd]. intros _. by rewrite process_cases, Hin. }
  destruct (read_csv text) as [e|df] eqn:Hread.
  { cbn [snd]. intros _. by rewrite process_cases, Hin, Hread. }
  destruct (select_human not_in_index df) as [e|sma_df] eqn:Hsel.
  { cbn [snd]. intros _. by rewrite process_cases, Hin, Hread, Hsel. }
  case_decide as Hw.
  { cbn [snd]. intros _. rewrite process_cases, Hin, Hread, Hsel.
    by rewrite decide_True. }
  cbn zeta. destruct (rescan fs (csv_text sma_df)) as [e|d] eqn:Hinv.
  { cbn [snd]. intros Hsame. rewrite process_cases, Hsame, Hread, Hsel.
    rewrite decide_False by done. cbn zeta.
    rewrite rescan_after_stage2, Hinv. by rewrite after_stage2_idemp. }
  case_decide as Hw'.
  { cbn [snd]. intros Hsame. rewrite process_cases, Hsame, Hread, Hsel.
    rewrite decide_False by done. cbn zeta.
    rewrite rescan_after_stage2, Hinv, after_stage2_idemp.
    by rewrite decide_True. }
  cbn [snd]. intros Hsame. rewrite process_cases, Hsame, Hread, Hsel.
  rewrite decide_False by done. cbn zeta.
  rewrite rescan_after_stage3, rescan_after_stage2, Hinv.
  rewrite decide_False by done. by rewrite after_stages_idemp.
Qed.


(** C10, as amended. At every point of the scan between two passes through
    the body of the inner loop, and so for the index the final file is
    written from, every key maps to a non-empty list, and every complex id
    in the list of a key is the first of the three TAB-separated fields of a
    data line of the intermediate file taken after [strip()], the third field
    of which has the key among its trimmed, non-empty tokens. *)
Theorem index_sound content d :
  d ∈ ∅ :: scan_states ∅ (data_lines content) ∨ invert (readlines content) = inr d →
  sound (data_lines content) d.
Proof.
  assert (∀ d', d' ∈ ∅ :: scan_states ∅ (data_lines content) →
                sound (data_lines content) d') as Hstates.
  { intros d' [->|Hd']%elem_of_cons; [apply sound_empty|].
    pose proof (scan_states_sound (data_lines content) (data_lines content) ∅
                  (λ _ H, H) (sound_empty _)) as Hall.
    rewrite Forall_forall in Hall. by apply Hall. }
  intros [Hd|Hinv]; [by apply Hstates|].
  apply Hstates. unfold invert, data_lines in *.
  destruct (readlines content) as [|header data]; [done|].
  by apply scan_in_states.
Qed.

End claims.

(** * The properties at the sample inputs *)

Lemma sample_frame_has_required_columns : has_required_columns sample_frame.
Proof. by_evaluation. Qed.

Example sample_frame_retained :
  retained sample_frame =
    [ [Val "CPX-1"; Val "Foo"; Val "Human"; NaN; Val "P1;P2; P1"];
      [Val "CPX-3"; NaN; Val "Human"; NaN; Val "P0;P2;;"] ].
Proof. reflexivity. Qed.

(** The example of the specification: P1 is listed twice by CPX-1 and keeps
    both entries, the mouse row and the row with organism "human" are gone. *)
Example sample_run_final_file :
  sample_run sample_frame =
    (Returned [],
     posix_fs
       (<["Complexes_prot_found_in.txt" :=
            complexes_header +:+
            "P0" +:+ String TAB "CPX-3" +:+ String LF "" +:+
            "P1" +:+ String TAB "CPX-1|CPX-1" +:+ String LF "" +:+
            "P2" +:+ String TAB "CPX-1|CPX-3" +:+ String LF ""]>
          (<["corum_humanComplexes_sma.txt" :=
               sma_header +:+
               raw_record ["CPX-1"; "Foo"; "P1;P2; P1"] +:+
               raw_record ["CPX-3"; ""; "P0;P2;;"]]>
             (files sample_fs)))
       ∅).
Proof. vm_compute. reflexivity. Qed.

(** What a reader finds in the intermediate file of that run. *)
Example sample_run_intermediate_records :
  read_tsv (intermediate_text sample_frame) =
    [ ["complex_id"; "complex_name"; "subunits_uniprot_id"];
      ["CPX-1"; "Foo"; "P1;P2; P1"];
      ["CPX-3"; ""; "P0;P2;;"] ] ∧
  read_tsv (intermediate_text embedded_tab_frame) =
    [ ["complex_id"; "complex_name"; "subunits_uniprot_id"];
      [""; "A" +:+ String TAB "B"; "P1"] ].
Proof. split; reflexivity. Qed.

Lemma sample_fs_writable path : path ∉ unwritable sample_fs.
Proof. apply not_elem_of_empty. Qed.

Lemma inversion_complete_witness :
  let recs := record_of sample_frame <$> retained sample_frame in
  ∃ keys final,
    (sample_run sample_frame).1 = Returned [] ∧
    files (sample_run sample_frame).2 !! "Complexes_prot_found_in.txt" = Some final ∧
    readlines final = complexes_header :: (final_row recs <$> keys) ∧
    StronglySorted str_lt keys ∧
    (∀ k, k ∈ keys ↔
          ∃ row, row ∈ retained sample_frame ∧
                 k ∈ subunits_of (subunits_field_of sample_frame row)) ∧
    (∀ k, length (postings recs k) = total_occurrences recs k) ∧
    (∀ k c, length (filter (λ x, x = c) (postings recs k)) = occurrences recs c k).
Proof.
  apply (inversion_complete (parser_of sample_frame) sample_not_in_index sample_fs
           "corum_humanComplexes.txt" "corum_humanComplexes_sma.txt"
           "Complexes_prot_found_in.txt" "(the download)" sample_frame).
  - reflexivity.
  - reflexivity.
  - apply sample_frame_has_required_columns.
  - apply sample_fs_writable.
  - apply sample_fs_writable.
  - by_evaluation.
  - by_evaluation.
Defined.

(** C1, as stated, fails: two retained complexes share the protein P1, all
    rows are readable and the file is read back as written, and the row of
    P1 holds CPX-1 once although P1 occurs twice across the retained rows. *)
Lemma shared_protein_counts_differ :
  let recs := record_of shared_protein_frame <$> retained shared_protein_frame in
  Forall (readable_row shared_protein_frame) (retained shared_protein_frame) ∧
  reads_back sample_fs (intermediate_text shared_protein_frame) ∧
  (sample_run shared_protein_frame).1 = Returned [] ∧
  files (sample_run shared_protein_frame).2 !! "Complexes_prot_found_in.txt" =
    Some (complexes_header +:+ "P1" +:+ String TAB "CPX-1|CPX-2" +:+ String LF "") ∧
  length (filter (λ x, x = "CPX-1") (postings recs "P1")) = 1 ∧
  total_occurrences recs "P1" = 2 ∧
  length (filter (λ x, x = "CPX-1") (postings recs "P1")) ≠ total_occurrences recs "P1".
Proof.
  cbn zeta. split; [by_evaluation|]. split; [by_evaluation|].
  repeat split; try reflexivity. by_evaluation.
Qed.

(** A complex name with double quotes in it is no obstacle: the run
    completes and reports the two proteins of the complex. *)
Example quoted_name_run :
  ¬ plain (complex_name_of quoted_name_frame
             [Val "CPX-1"; Val ("the " +:+ String DQUOTE ("Foo" +:+ String DQUOTE " complex"));
              Val "Human"; NaN; Val "P1;P2 "]) ∧
  Forall (readable_row quoted_name_frame) (retained quoted_name_frame) ∧
  (sample_run quoted_name_frame).1 = Returned [] ∧
  files (sample_run quoted_name_frame).2 !! "Complexes_prot_found_in.txt" =
    Some (complexes_header +:+
          "P1" +:+ String TAB "CPX-1" +:+ String LF "" +:+
          "P2" +:+ String TAB "CPX-1" +:+ String LF "").
Proof.
  split; [by_evaluation|]. split; [by_evaluation|]. split; reflexivity.
Qed.

(** Under a locale whose encoding is ASCII the intermediate file of a table
    with an accented complex name is not read back: the call prints the text
    of the [UnicodeDecodeError] and writes no final file. Under a UTF-8
    locale the same table goes through. *)
Example locale_decides_the_read_back :
  Forall (readable_row accented_name_frame) (retained accented_name_frame) ∧
  ¬ reads_back ascii_locale_fs (intermediate_text accented_name_frame) ∧
  process_corum_data (parser_of accented_name_frame) sample_not_in_index
    "corum_humanComplexes.txt" "corum_humanComplexes_sma.txt"
    "Complexes_prot_found_in.txt" ascii_locale_fs =
    (Returned [unexpected_message
                 "'ascii' codec can't decode byte 0xc3 in position 57: ordinal not in range(128)"],
     write_file "corum_humanComplexes_sma.txt" (intermediate_text accented_name_frame)
       ascii_locale_fs) ∧
  (sample_run accented_name_frame).1 = Returned [].
Proof.
  split; [by_evaluation|]. split; [by_evaluation|]. split; reflexivity.
Qed.

Lemma filter_correct_witness :
  ∃ organism complex_id complex_name subunits content kept,
    first_position "organism" (columns sample_frame) organism ∧
    first_position "complex_id" (columns sample_frame) complex_id ∧
    first_position "complex_name" (columns sample_frame) complex_name ∧
    first_position "subunits_uniprot_id" (columns sample_frame) subunits ∧
    files (sample_run sample_frame).2 !! "corum_humanComplexes_sma.txt" = Some content ∧
    tail (read_tsv content) =
      (λ row, [shown (cell_of row complex_id); shown (cell_of row complex_name);
               shown (cell_of row subunits)]) <$> kept ∧
    kept = filter (λ row, row !! organism = Some (Val "Human")) (rows sample_frame) ∧
    kept `sublist_of` rows sample_frame ∧
    (∀ row, row ∈ kept ↔
              row ∈ rows sample_frame ∧ row !! organism = Some (Val "Human")).
Proof.
  apply (filter_correct (parser_of sample_frame) sample_not_in_index sample_fs
           "corum_humanComplexes.txt" "corum_humanComplexes_sma.txt"
           "Complexes_prot_found_in.txt" "(the download)" sample_frame).
  - reflexivity.
  - reflexivity.
  - apply sample_frame_has_required_columns.
  - apply sample_fs_writable.
  - by_evaluation.
Defined.

Lemma final_keys_sorted_witness :
  ∃ final,
    files (sample_run sample_frame).2 !! "Complexes_prot_found_in.txt" = Some final ∧
    head (readlines final) = Some complexes_header ∧
    StronglySorted str_lt (key_of <$> data_lines final) ∧
    NoDup (key_of <$> data_lines final).
Proof.
  apply (final_keys_sorted (parser_of sample_frame) sample_not_in_index sample_fs
           "corum_humanComplexes.txt" "corum_humanComplexes_sma.txt"
           "Complexes_prot_found_in.txt").
  reflexivity.
Defined.

(** C4 at the failing input: after a well-formed human row, a human row whose
    subunits cell is missing makes the scan raise; the run prints the
    catch-all diagnostic and writes no final file, so the first row's
    proteins are not reported either. A row of semicolons and spaces, in
    contrast, goes through the guard of line 43 and adds nothing. *)
Lemma empty_subunits_abort_the_run :
  (sample_run semicolons_only_frame).1 = Returned [] ∧
  files (sample_run semicolons_only_frame).2 !! "Complexes_prot_found_in.txt" =
    Some (complexes_header +:+
          "P1" +:+ String TAB "CPX-1" +:+ String LF "" +:+
          "P2" +:+ String TAB "CPX-1" +:+ String LF "") ∧
  (sample_run empty_subunits_frame).1 =
    Returned [unexpected_message "not enough values to unpack (expected 3, got 2)"] ∧
  files (sample_run empty_subunits_frame).2 !! "corum_humanComplexes_sma.txt" =
    Some (sma_header +:+
          raw_record ["CPX-1"; "Foo"; "P1;P2"] +:+ raw_record ["CPX-2"; "Bar"; ""]) ∧
  files (sample_run empty_subunits_frame).2 !! "Complexes_prot_found_in.txt" = None.
Proof. repeat split; reflexivity. Qed.

(** C5 at the failing inputs. The only data line of the intermediate file
    splits on TAB into four fields: the complex name holds a TAB, and the
    subunits are missing in the first table, the complex id in the second.
    [strip()] takes the empty field at the end of the line, or at its start,
    away with its separator; three fields are left, the run prints nothing
    and the final file reports a piece of the quoted name as a protein of
    CPX-1, or P1 under a piece of the quoted name. With all three cells
    present the same name makes the run fail, as the specification wants. *)
Lemma stripped_line_is_accepted :
  (∃ line,
    data_lines (intermediate_text tab_name_frame) = [line] ∧
    line = "CPX-1" +:+ String TAB (String DQUOTE ("A" +:+ String TAB ("B" +:+
             String DQUOTE (String TAB (String LF ""))))) ∧
    length (Str.split TAB line) = 4 ∧
    length (Str.split TAB (Str.strip line)) = 3 ∧
    (sample_run tab_name_frame).1 = Returned [] ∧
    files (sample_run tab_name_frame).2 !! "Complexes_prot_found_in.txt" =
      Some (complexes_header +:+
            String "B" (String DQUOTE (String TAB "CPX-1")) +:+ String LF "")) ∧
  (∃ line,
    data_lines (intermediate_text embedded_tab_frame) = [line] ∧
    length (Str.split TAB line) = 4 ∧
    length (Str.split TAB (Str.strip line)) = 3 ∧
    (sample_run embedded_tab_frame).1 = Returned [] ∧
    files (sample_run embedded_tab_frame).2 !! "Complexes_prot_found_in.txt" =
      Some (complexes_header +:+ "P1" +:+ String TAB (String DQUOTE "A") +:+ String LF "")) ∧
  (sample_run tab_name_subunit_frame).1 =
    Returned [unexpected_message "too many values to unpack (expected 3)"].
Proof.
  split; [eexists; repeat split; reflexivity|].
  split; [eexists; repeat split; reflexivity|]. reflexivity.
Qed.

Lemma writer_verbatim_witness :
  let table := [ [Val "CPX-1"; Val "Foo"; Val "P1;P2; P1"];
                 [Val "CPX-3"; NaN; NaN];
                 [Val "CPX-5"; Val ("A" +:+ String TAB "B"); Val "P7"] ] in
  ∃ lines,
    to_csv (Frame sma_columns table) "corum_humanComplexes_sma.txt" sample_fs =
      (inr (),
       write_file "corum_humanComplexes_sma.txt" (sma_header +:+ Str.concat lines)
         sample_fs) ∧
    Forall2 (λ row line,
      line = raw_record ((λ c, written (shown c)) <$> row) ∧
      (line = raw_record (shown <$> row) ↔ Forall (λ c, verbatim (shown c)) row))
      table lines.
Proof.
  cbn zeta.
  apply (writer_verbatim
           [ [Val "CPX-1"; Val "Foo"; Val "P1;P2; P1"];
             [Val "CPX-3"; NaN; NaN];
             [Val "CPX-5"; Val ("A" +:+ String TAB "B"); Val "P7"] ]
           "corum_humanComplexes_sma.txt" sample_fs).
  - apply sample_fs_writable.
  - repeat constructor.
Defined.

(** C6, as stated, fails: a complex name that holds a TAB is written inside
    double quotes, so the row is not the three fields joined as they are;
    so is a name that holds a double quote, with that quote doubled, and a
    name that holds an LF. *)
Lemma writer_quotes_embedded_tab :
  let fields := ["CPX-1"; "A" +:+ String TAB "B"; "P1"] in
  let fields' := ["CPX-1"; "A" +:+ String DQUOTE "B"; "P1"] in
  let fields'' := ["CPX-1"; "A" +:+ String LF "B"; "P1"] in
  csv_text (Frame sma_columns [Val <$> fields]) =
    sma_header +:+
    "CPX-1" +:+ String TAB (String DQUOTE ("A" +:+ String TAB ("B" +:+ String DQUOTE
      (String TAB ("P1" +:+ String LF ""))))) ∧
  csv_text (Frame sma_columns [Val <$> fields]) ≠ sma_header +:+ raw_record fields ∧
  csv_text (Frame sma_columns [Val <$> fields']) =
    sma_header +:+
    "CPX-1" +:+ String TAB (String DQUOTE ("A" +:+ String DQUOTE (String DQUOTE ("B" +:+
      String DQUOTE (String TAB ("P1" +:+ String LF "")))))) ∧
  csv_text (Frame sma_columns [Val <$> fields']) ≠ sma_header +:+ raw_record fields' ∧
  csv_text (Frame sma_columns [Val <$> fields'']) =
    sma_header +:+
    "CPX-1" +:+ String TAB (String DQUOTE ("A" +:+ String LF ("B" +:+ String DQUOTE
      (String TAB ("P1" +:+ String LF ""))))) ∧
  csv_text (Frame sma_columns [Val <$> fields'']) ≠ sma_header +:+ raw_record fields''.
Proof.
  repeat split; try reflexivity; vm_compute; discriminate.
Qed.

(** A CR is no reason to quote: the writer ends its lines with LF, and the
    field is written as it is. A subunits field that ends with a CR is then
    read back as the end of its line, and the run completes. *)
Example writer_leaves_cr :
  let fields := ["CPX-1"; "A" +:+ String CR "B"; "P1"] in
  csv_text (Frame sma_columns [Val <$> fields]) = sma_header +:+ raw_record fields ∧
  intermediate_text cr_subunits_frame =
    sma_header +:+ "CPX-1" +:+ String TAB ("Foo" +:+ String TAB ("P1" +:+
      String CR (String LF ""))) ∧
  (sample_run cr_subunits_frame).1 = Returned [] ∧
  files (sample_run cr_subunits_frame).2 !! "Complexes_prot_found_in.txt" =
    Some (complexes_header +:+ "P1" +:+ String TAB "CPX-1" +:+ String LF "").
Proof. repeat split; reflexivity. Qed.

Lemma failures_become_diagnostics_witness :
  let body := process_body failing_parser sample_not_in_index
                "corum_humanComplexes.txt" "corum_humanComplexes_sma.txt"
                "Complexes_prot_found_in.txt" sample_fs in
  ∃ printed,
    process_corum_data failing_parser sample_not_in_index
      "corum_humanComplexes.txt" "corum_humanComplexes_sma.txt"
      "Complexes_prot_found_in.txt" sample_fs = (Returned printed, body.2) ∧
    (body.1 = inr () → printed = []) ∧
    (∀ e, body.1 = inl e → ∃ line, printed = [line]) ∧
    (files sample_fs !! "corum_humanComplexes.txt" = None →
       printed = [not_found_message "corum_humanComplexes.txt"]) ∧
    (∀ text e, files sample_fs !! "corum_humanComplexes.txt" = Some text →
       failing_parser text = inl e →
       exn_cls e = ParserError → printed = [parse_message "corum_humanComplexes.txt"]) ∧
    (∀ e, body.1 = inl e →
       issubclass (exn_cls e) FileNotFoundError = false →
       issubclass (exn_cls e) ParserError = false →
       printed = [unexpected_message (exn_str e)]) ∧
    (∀ e, body.1 = inl e →
       files sample_fs !! "corum_humanComplexes.txt" = None ∧
         e = no_such_file "corum_humanComplexes.txt" ∨
       (∃ text, files sample_fs !! "corum_humanComplexes.txt" = Some text ∧
                failing_parser text = inl e) ∨
       exn_cls e = KeyError ∨
       "corum_humanComplexes_sma.txt" ∈ unwritable sample_fs ∧
         e = raise_os (to_csv_error sample_fs "corum_humanComplexes_sma.txt") ∨
       (∃ n, n ≠ 3 ∧ e = unpack_error n) ∨
       exn_cls e = StopIteration ∨
       exn_cls e = UnicodeDecodeError ∨
       "Complexes_prot_found_in.txt" ∈ unwritable sample_fs ∧
         e = raise_os (open_error sample_fs "Complexes_prot_found_in.txt")).
Proof.
  apply (failures_become_diagnostics failing_parser sample_not_in_index sample_fs
           "corum_humanComplexes.txt" "corum_humanComplexes_sma.txt"
           "Complexes_prot_found_in.txt").
  intros text e [= <-]. reflexivity.
Defined.

(** C7, as stated, fails: the diagnostic of a malformed row names none of the
    three files of the run, the intermediate file in which the row stands
    included. *)
Lemma malformed_row_diagnostic_names_no_file :
  ∃ line,
    (sample_run empty_subunits_frame).1 = Returned [line] ∧
    line = "An unexpected error occurred: not enough values to unpack (expected 3, got 2)" ∧
    Str.contains "corum_humanComplexes_sma.txt" line = false ∧
    Str.contains "corum_humanComplexes.txt" line = false ∧
    Str.contains "Complexes_prot_found_in.txt" line = false.
Proof. eexists. repeat split; reflexivity. Qed.

(** The three diagnostics at work: the download is missing; the parser
    rejects it; the directory of the final path is missing, and the
    [FileNotFoundError] of line 50 is taken for a missing input file. *)
Example diagnostics_of_sample_failures :
  (process_corum_data (parser_of sample_frame) sample_not_in_index
     "corum_humanComplexes.txt" "corum_humanComplexes_sma.txt"
     "Complexes_prot_found_in.txt" empty_fs).1 =
    Returned ["Error: Input file 'corum_humanComplexes.txt' not found."] ∧
  (process_corum_data failing_parser sample_not_in_index
     "corum_humanComplexes.txt" "corum_humanComplexes_sma.txt"
     "Complexes_prot_found_in.txt" sample_fs).1 =
    Returned ["Error: Could not parse input file 'corum_humanComplexes.txt'. Check file format."] ∧
  process_corum_data (parser_of sample_frame) sample_not_in_index
    "corum_humanComplexes.txt" "corum_humanComplexes_sma.txt"
    "out/Complexes_prot_found_in.txt" no_final_directory_fs =
    (Returned ["Error: Input file 'corum_humanComplexes.txt' not found."],
     write_file "corum_humanComplexes_sma.txt" (intermediate_text sample_frame)
       no_final_directory_fs).
Proof. repeat split; reflexivity. Qed.

Lemma rerun_is_identical_witness :
  process_corum_data (parser_of sample_frame) sample_not_in_index
    "corum_humanComplexes.txt" "corum_humanComplexes_sma.txt"
    "Complexes_prot_found_in.txt" (sample_run sample_frame).2 = sample_run sample_frame.
Proof.
  apply (rerun_is_identical (parser_of sample_frame) sample_not_in_index sample_fs
           "corum_humanComplexes.txt" "corum_humanComplexes_sma.txt"
           "Complexes_prot_found_in.txt").
  reflexivity.
Defined.


Lemma index_sound_witness :
  sound (data_lines (intermediate_text sample_frame))
    {[ "P0" := ["CPX-3"]; "P1" := ["CPX-1"; "CPX-1"]; "P2" := ["CPX-1"; "CPX-3"] ]}.
Proof.
  apply (index_sound (intermediate_text sample_frame)).
  right. vm_compute. reflexivity.
Defined.

(** C10, as stated, fails. For a complex id that starts with a space the
    index records "CPX-1" while the first field of the data line is
    " CPX-1"; for a missing complex id next to a complex name that holds a
    TAB, the index records a piece of the quoted name, which is the second
    field of the data line. *)
Lemma recorded_id_is_not_a_field_of_the_line :
  (∃ d,
    invert (readlines (intermediate_text leading_space_frame)) = inr d ∧
    d !! "P1" = Some ["CPX-1"] ∧
    data_lines (intermediate_text leading_space_frame) =
      [" CPX-1" +:+ String TAB ("Foo" +:+ String TAB ("P1" +:+ String LF ""))] ∧
    ¬ sound_unstripped (data_lines (intermediate_text leading_space_frame)) d) ∧
  (∃ d,
    invert (readlines (intermediate_text embedded_tab_frame)) = inr d ∧
    d !! "P1" = Some [String DQUOTE "A"] ∧
    data_lines (intermediate_text embedded_tab_frame) =
      [String TAB (String DQUOTE ("A" +:+ String TAB ("B" +:+ String DQUOTE
         (String TAB ("P1" +:+ String LF "")))))] ∧
    ¬ sound_unstripped (data_lines (intermediate_text embedded_tab_frame)) d).
Proof.
  split; (eexists; split; [reflexivity|]; split; [reflexivity|]; split; [reflexivity|]).
  - intros Hsound. destruct (Hsound "P1" ["CPX-1"] eq_refl) as [_ Hids].
    destruct (Hids "CPX-1") as (line & Hline & Hkey & _); [left|].
    apply list_elem_of_singleton in Hline. subst line. vm_compute in Hkey.
    discriminate.
  - intros Hsound. destruct (Hsound "P1" [String DQUOTE "A"] eq_refl) as [_ Hids].
    destruct (Hids (String DQUOTE "A")) as (line & Hline & Hkey & _); [left|].
    apply list_elem_of_singleton in Hline. subst line. vm_compute in Hkey.
    discriminate.
Qed.

(** * Further properties of the code *)

(** ** The tokens of a subunits field (lines 41-43) *)

Section token_properties.

Import StrFacts.

Lemma split_app_sep sep a b :
  Str.split sep (a +:+ String sep b) = (Str.split sep a ++ Str.split sep b)%list.
Proof.
  induction a as [|c a IH].
  - rewrite app_nil_l. cbn. by rewrite decide_True.
  - rewrite app_cons. cbn [Str.split]. case_decide; [by rewrite IH|].
    rewrite IH. destruct (Str.split sep a) as [|h t] eqn:Ha; [|done].
    by apply split_not_nil in Ha.
Qed.

Lemma lstrip_idemp s : Str.lstrip (Str.lstrip s) = Str.lstrip s.
Proof.
  induction s as [|c s IH]; [done|]. cbn [Str.lstrip].
  destruct (py_isspace c) eqn:Hc; [done|]. cbn [Str.lstrip]. by rewrite Hc.
Qed.

Lemma rstrip_idemp s : Str.rstrip (Str.rstrip s) = Str.rstrip s.
Proof.
  induction s as [|c s IH]; [done|].
  rewrite rstrip_cons. case_decide as Hnil.
  - destruct (py_isspace c) eqn:Hc; [done|]. cbn. by rewrite Hc.
  - rewrite rstrip_cons, IH. by case_decide.
Qed.

Lemma strip_idemp s : Str.strip (Str.strip s) = Str.strip s.
Proof.
  unfold Str.strip.
  by rewrite (lstrip_rstrip (Str.lstrip s)), lstrip_idemp, rstrip_idemp.
Qed.

Lemma subunits_of_trimmed subunits t : t ∈ subunits_of subunits → trimmed_token t.
Proof.
  unfold subunits_of. intros [Hne Ht]%list_elem_of_filter.
  apply list_elem_of_fmap in Ht as (part & -> & Hpart).
  split; [done|]. split; [apply strip_idemp|].
  apply strip_any. pose proof (split_parts_free SEMICOLON subunits) as Hfree.
  rewrite Forall_forall in Hfree. by apply Hfree.
Qed.

(** X1. The tokens of two fields joined by a semicolon are the tokens of the
    first followed by the tokens of the second; so a doubled, a leading or a
    trailing semicolon adds no token. *)
Theorem subunits_of_semicolon a b :
  subunits_of (a +:+ String SEMICOLON b) = (subunits_of a ++ subunits_of b)%list.
Proof.
  unfold subunits_of. by rewrite split_app_sep, fmap_app, filter_app.
Qed.

Lemma split_lstrip sep s :
  py_isspace sep = false →
  ∃ h t, Str.split sep s = h :: t ∧ Str.split sep (Str.lstrip s) = Str.lstrip h :: t.
Proof.
  intros Hsep. induction s as [|c s (h & t & Hs & IH)]; [by exists "", []|].
  cbn [Str.lstrip]. destruct (py_isspace c) eqn:Hc.
  - exists (String c h), t. cbn [Str.split Str.lstrip].
    rewrite decide_False by (intros ->; congruence). by rewrite Hs, Hc.
  - cbn [Str.split]. case_decide as Hcs; [by exists "", (Str.split sep s)|].
    rewrite Hs. exists (String c h), t. cbn [Str.lstrip]. by rewrite Hc.
Qed.

Lemma strip_lstrip s : Str.strip (Str.lstrip s) = Str.strip s.
Proof. unfold Str.strip. by rewrite lstrip_idemp. Qed.

Lemma subunits_of_lstrip s : subunits_of (Str.lstrip s) = subunits_of s.
Proof.
  unfold subunits_of. destruct (split_lstrip SEMICOLON s eq_refl) as (h & t & -> & ->).
  cbn [fmap list_fmap]. by rewrite strip_lstrip.
Qed.

(** X16. White space around the whole subunits field carries no token:
    stripping the field before it is split on semicolons gives the same
    tokens, so the [strip()] of line 39, which reaches the end of the third
    field, loses none. *)
Theorem subunits_of_strip s : subunits_of (Str.strip s) = subunits_of s.
Proof. unfold Str.strip. by rewrite subunits_of_rstrip, subunits_of_lstrip. Qed.

End token_properties.

(** ** The scan and the sort (lines 37-47 and 53) *)

Section scan_properties.

Lemma scan_app d lines1 lines2 :
  scan d (lines1 ++ lines2) =
    match scan d lines1 with
    | inl e => inl e
    | inr d1 => scan d1 lines2
    end.
Proof.
  revert d. induction lines1 as [|l lines1 IH]; intros d; [done|].
  cbn [app scan]. destruct (scan_line d l) as [e|d']; [done|]. apply IH.
Qed.

Lemma scan_grows d lines d' k ids :
  scan d lines = inr d' → d !! k = Some ids →
  ∃ more, d' !! k = Some (ids ++ more)%list.
Proof.
  rewrite scan_parse_lines. destruct (parse_lines lines) as [e|recs]; [done|].
  intros [= <-] Hk. rewrite build_lookup, Hk.
  destruct (postings recs k) as [|c more]; cbn [extend default].
  - exists []. by rewrite app_nil_r.
  - by eexists.
Qed.

(** X2. The scan composes and only ever appends: when the lines scanned so
    far are followed by more lines and the whole scan succeeds, the scan of
    the first part succeeds too, the whole scan is the scan of the rest
    started from its index, and every list recorded after the first part is
    a prefix of the list the same key has at the end. *)
Theorem scan_appends_only d lines1 lines2 d2 :
  scan d (lines1 ++ lines2) = inr d2 →
  ∃ d1,
    scan d lines1 = inr d1 ∧
    scan d1 lines2 = inr d2 ∧
    ∀ k ids, d1 !! k = Some ids → ∃ more, d2 !! k = Some (ids ++ more)%list.
Proof.
  rewrite scan_app. destruct (scan d lines1) as [e|d1]; [done|].
  intros Hrest. exists d1. split; [done|]. split; [done|].
  intros k ids Hk. by eapply scan_grows.
Qed.

(** X3. Every key of the index a scan ends with is a token that line 43 let
    through: not empty, without white space at either end, and without a
    semicolon, whatever the lines were. *)
Theorem index_keys_trimmed lines d k ids :
  invert lines = inr d → d !! k = Some ids → trimmed_token k.
Proof.
  unfold invert. destruct lines as [|header data]; [done|].
  rewrite scan_parse_lines. destruct (parse_lines data) as [e|recs]; [done|].
  intros [= <-]. rewrite build_empty_lookup.
  destruct (postings recs k) as [|c more] eqn:Hp; [done|]. intros _.
  assert (c ∈ postings recs k) as (r & _ & _ & Hk)%elem_of_postings
    by (rewrite Hp; left).
  by eapply subunits_of_trimmed.
Qed.

Lemma sorted_subunits_unique (d : index) l :
  l ≡ₚ (map_to_list d).*1 → Sorted String.le l → l = sorted_subunits d.
Proof.
  intros Hperm Hsorted. apply (Sorted_unique String.le); [done| |].
  - apply (Sorted_merge_sort String.le).
  - by rewrite sorted_subunits_perm.
Qed.

(** X4. The order of the rows of the final file depends on the set of
    proteins only: two indexes with the same keys are written in the same
    key order, whatever lists they hold and in whatever order the keys were
    first met. *)
Theorem sorted_subunits_dom (d1 d2 : index) :
  dom d1 = dom d2 → sorted_subunits d1 = sorted_subunits d2.
Proof.
  intros Hdom. apply sorted_subunits_unique.
  - rewrite <-sorted_subunits_perm.
    apply NoDup_Permutation; [apply sorted_subunits_NoDup..|].
    intros k. by rewrite !elem_of_sorted_subunits, <-!elem_of_dom, Hdom.
  - apply (Sorted_merge_sort String.le).
Qed.

End scan_properties.

(** ** From stage 2 to stage 3 (lines 31 and 35-39) *)

Section handover_properties.

Import StrFacts.

Lemma select_human_columns not_in_index df sma_df :
  select_human not_in_index df = inr sma_df → columns sma_df = sma_columns.
Proof.
  unfold select_human, getitem, getitem_list.
  destruct (index_of "organism" (columns df)); [|done]. cbn [columns].
  destruct (positions_of (columns df) sma_columns); [|done]. by intros [= <-].
Qed.

Variable df : DataFrame.

(** X6. What stage 2 writes, stage 3 reads back: when every retained row is
    readable (complex id and subunits without TAB, double quote, LF or CR,
    the complex id not empty and not starting with white space, the
    subunits not all white space, the complex name without TAB, LF or CR
    but possibly with double quotes), the data lines of the intermediate
    file parse, in order, to the complex id of each retained row and its
    subunits field without trailing white space. *)
Theorem intermediate_round_trip :
  Forall (readable_row df) (retained df) →
  parse_lines (data_lines (intermediate_text df)) =
    inr ((λ row, (complex_id_of df row, Str.rstrip (subunits_field_of df row)))
           <$> retained df).
Proof. apply parse_data_lines_readable. Qed.

End handover_properties.

(** X7. The complex name is read and thrown away (the [_] of line 39): two
    inputs whose retained rows are readable and agree, row by row, on
    complex id and subunits field give the same index, hence the same final
    file, whatever their complex names are. *)
Theorem complex_name_is_ignored df1 df2 :
  Forall (readable_row df1) (retained df1) →
  Forall (readable_row df2) (retained df2) →
  record_of df1 <$> retained df1 = record_of df2 <$> retained df2 →
  ∃ d,
    invert (readlines (intermediate_text df1)) = inr d ∧
    invert (readlines (intermediate_text df2)) = inr d.
Proof.
  intros H1 H2 Hrecs.
  rewrite !invert_intermediate_text, !scan_parse_lines.
  rewrite !parse_data_lines_readable by done.
  assert (∀ df,
    (λ row, (complex_id_of df row, Str.rstrip (subunits_field_of df row))) <$> retained df =
    (λ r : string * string, (r.1, Str.rstrip r.2)) <$> (record_of df <$> retained df)) as Hshape.
  { intros df. by rewrite <-list_fmap_compose. }
  rewrite (Hshape df1), (Hshape df2), Hrecs. by eexists.
Qed.

(** ** Failures and what they leave behind (lines 24-64) *)

Section failure_properties.

Variable read_csv : string → result DataFrame.
Variable not_in_index : list string → string.

Lemma index_of_None name cols : index_of name cols = None ↔ name ∉ cols.
Proof.
  split.
  - intros Hnone Hin. apply index_of_elem_of in Hin as [i Hi]. congruence.
  - induction cols as [|x cols IH]; [done|]. intros Hnot. cbn [index_of].
    case_decide as Hx; [subst; destruct Hnot; left|].
    rewrite IH; [done|]. intros Hin. apply Hnot. by right.
Qed.

Lemma positions_of_None cols names :
  ¬ Forall (λ name, name ∈ cols) names → positions_of cols names = None.
Proof.
  induction names as [|name names IH]; [intros []; constructor|].
  intros Hnot. cbn [positions_of].
  destruct (index_of name cols) as [i|] eqn:Hi; [|done].
  rewrite IH; [done|]. intros Hall. apply Hnot. constructor; [|done].
  destruct (decide (name ∈ cols)) as [|Hout]; [done|].
  apply index_of_None in Hout. congruence.
Qed.

(** X8. Without a column labelled organism, line 27 raises [KeyError]: the
    call prints the catch-all diagnostic with the quoted label and writes
    nothing, whether or not the other three columns are there. *)
Theorem missing_organism_column fs input_file output_sma_file output_complexes_file
    text df :
  files fs !! input_file = Some text →
  read_csv text = inr df →
  "organism" ∉ columns df →
  process_corum_data read_csv not_in_index
    input_file output_sma_file output_complexes_file fs =
    (Returned [unexpected_message "'organism'"], fs).
Proof.
  intros Hin Hread Hcol%index_of_None.
  rewrite process_cases, Hin, Hread. unfold select_human, getitem. by rewrite Hcol.
Qed.

(** X9. With the organism column but without one of complex_id,
    complex_name and subunits_uniprot_id, line 30 raises [KeyError] for the
    missing labels: the call prints the catch-all diagnostic with pandas'
    text for them and writes nothing. *)
Theorem missing_output_column fs input_file output_sma_file output_complexes_file
    text df :
  files fs !! input_file = Some text →
  read_csv text = inr df →
  "organism" ∈ columns df →
  ¬ Forall (λ name, name ∈ columns df) sma_columns →
  process_corum_data read_csv not_in_index
    input_file output_sma_file output_complexes_file fs =
    (Returned [unexpected_message
                 (not_in_index (filter (λ name, name ∉ columns df) sma_columns))], fs).
Proof.
  intros Hin Hread [i Hi]%index_of_elem_of Hmissing.
  rewrite process_cases, Hin, Hread. unfold select_human, getitem, getitem_list.
  rewrite Hi. cbn [columns]. rewrite (positions_of_None _ _ Hmissing).
  rewrite (list_filter_iff _ (λ name, name ∉ columns df) sma_columns)
    by (intros name; apply index_of_None).
  reflexivity.
Qed.


(** X12. An input without a single "Human" row is no error: the call prints
    nothing, the intermediate file is its header line alone and the final
    file is its header line alone. *)
Theorem no_human_rows fs input_file output_sma_file output_complexes_file text df :
  files fs !! input_file = Some text →
  read_csv text = inr df →
  has_required_columns df →
  Forall (λ row, field df "organism" row ≠ Val "Human") (rows df) →
  output_sma_file ∉ unwritable fs →
  output_complexes_file ∉ unwritable fs →
  process_corum_data read_csv not_in_index
    input_file output_sma_file output_complexes_file fs =
    (Returned [],
     Filesystem
       (<[output_complexes_file := complexes_header]>
          (<[output_sma_file := sma_header]> (files fs)))
       (unwritable fs) (open_error fs) (to_csv_error fs) (locale_decode fs)).
Proof.
  intros Hin Hread Hcols Hnone Hw Hw'.
  rewrite process_cases, Hin, Hread, (select_human_ok _ _ Hcols).
  rewrite decide_False by done. cbn zeta.
  assert (filter (λ row, field df "organism" row = Val "Human") (rows df) = []) as ->.
  { induction Hnone as [|row l Hrow _ IH]; [done|].
    by rewrite filter_cons, decide_False. }
  cbn [fmap list_fmap].
  assert (csv_text (Frame sma_columns []) = sma_header) as Htext by reflexivity.
  assert (rescan fs sma_header = inr ∅) as Hinv by reflexivity.
  assert (complexes_text ∅ = complexes_header) as Hfinal by reflexivity.
  unfold after_stage2, after_stage3, write_file. rewrite Htext, Hinv.
  rewrite decide_False by done.
  cbn [files unwritable open_error to_csv_error locale_decode]. by rewrite Hfinal.
Qed.

Lemma parse_lines_three_fields lines :
  Forall (λ line, length (Str.split TAB (Str.strip line)) = 3) lines →
  ∃ recs, parse_lines lines = inr recs.
Proof.
  induction 1 as [|l lines Hl _ [recs IH]]; [by eexists|].
  cbn [parse_lines]. unfold parse_line at 1.
  destruct (Str.split TAB (Str.strip l)) as [|a [|b [|x [|y t]]]]; try done.
  rewrite IH. by eexists.
Qed.

(** X5. Once the columns are selected and the intermediate file is written
    and read back as it was written, stage 3 finds the header stage 2 wrote:
    the first line of the file is the header line, so the [next] of line 36
    skips exactly it and never raises. The only exceptions that can then
    leave lines 35-57 are the [ValueError] of the unpacking on line 39 and
    the error of [open] on a final path that cannot be written. *)
Theorem scan_fails_only_by_unpacking fs input_file output_sma_file output_complexes_file
    text df sma_df :
  files fs !! input_file = Some text →
  read_csv text = inr df →
  select_human not_in_index df = inr sma_df →
  output_sma_file ∉ unwritable fs →
  reads_back fs (csv_text sma_df) →
  head (readlines (csv_text sma_df)) = Some sma_header ∧
  ∀ e, (process_body read_csv not_in_index
          input_file output_sma_file output_complexes_file fs).1 = inl e →
       (∃ n, n ≠ 3 ∧ e = unpack_error n) ∨
       (output_complexes_file ∈ unwritable fs ∧
        e = raise_os (open_error fs output_complexes_file)).
Proof.
  intros Hin Hread Hsel Hw Hback.
  pose proof (select_human_columns _ _ _ Hsel) as Hcols.
  assert (readlines (csv_text sma_df) =
          sma_header :: split_lines (translate_newlines
            (Str.concat ((λ row, csv_record (text_of_cell <$> row)) <$> rows sma_df))))
    as Hlines.
  { unfold csv_text. by rewrite Hcols, csv_record_sma_columns, readlines_sma_header. }
  split; [by rewrite Hlines|]. intros e.
  rewrite body_cases, Hin, Hread, Hsel. rewrite decide_False by done. cbn zeta.
  rewrite (rescan_reads_back _ _ Hback), Hlines. unfold invert.
  rewrite scan_parse_lines.
  destruct (parse_lines _) as [e'|recs] eqn:Hparse.
  - intros [= <-]. left. by eapply parse_lines_unpack_error.
  - case_decide; [|done]. intros [= <-]. by right.
Qed.

(** X17. When the intermediate file is read back as it was written and one
    of its data lines, once stripped of leading and trailing white space,
    does not split on TAB into exactly three fields, the unpacking raises
    [ValueError]; the call prints the catch-all diagnostic with the text of
    that exception and stops: the file system is left as it was after stage
    2, the final file is not written. *)
Theorem malformed_line_fails fs input_file output_sma_file output_complexes_file
    text df line :
  files fs !! input_file = Some text →
  read_csv text = inr df →
  has_required_columns df →
  output_sma_file ∉ unwritable fs →
  reads_back fs (intermediate_text df) →
  line ∈ data_lines (intermediate_text df) →
  length (Str.split TAB (Str.strip line)) ≠ 3 →
  ∃ n,
    n ≠ 3 ∧
    process_corum_data read_csv not_in_index
      input_file output_sma_file output_complexes_file fs =
      (Returned [unexpected_message (exn_str (unpack_error n))],
       write_file output_sma_file (intermediate_text df) fs).
Proof.
  intros Hin Hread Hcols Hw Hback Hline Hbad.
  rewrite process_cases, Hin, Hread, (select_human_ok _ _ Hcols).
  rewrite decide_False by done. cbn zeta. fold (retained df) (intermediate_text df).
  rewrite (rescan_reads_back _ _ Hback).
  unfold data_lines in Hline. unfold invert.
  destruct (readlines (intermediate_text df)) as [|header data];
    [by apply elem_of_nil in Hline|].
  cbn [tail] in Hline. rewrite scan_parse_lines.
  destruct (parse_lines_malformed _ _ Hline Hbad) as (n & Hn & ->).
  exists n. split; [done|]. by rewrite handle_unpack_error.
Qed.

(** X13. A final path that cannot be opened for writing is found out only
    after the scan: when the intermediate file is read back as it was
    written and all its data lines have three fields, the intermediate file
    is written, the final file is not, and the call prints one line that the
    class of the error of [open] decides: the catch-all diagnostic with the
    text of the error, or, for a [FileNotFoundError], the message that the
    input file was not found. *)
Theorem unwritable_final_path fs input_file output_sma_file output_complexes_file
    text df :
  files fs !! input_file = Some text →
  read_csv text = inr df →
  has_required_columns df →
  output_sma_file ∉ unwritable fs →
  output_complexes_file ∈ unwritable fs →
  reads_back fs (intermediate_text df) →
  Forall (λ line, length (Str.split TAB (Str.strip line)) = 3)
         (data_lines (intermediate_text df)) →
  process_corum_data read_csv not_in_index
    input_file output_sma_file output_complexes_file fs =
    (Returned [if decide (os_class (open_error fs output_complexes_file) = IsFileNotFoundError)
               then not_found_message input_file
               else unexpected_message (os_text (open_error fs output_complexes_file))],
     write_file output_sma_file (intermediate_text df) fs).
Proof.
  intros Hin Hread Hcols Hw Hw' Hback Hlines.
  rewrite process_cases, Hin, Hread, (select_human_ok _ _ Hcols).
  rewrite decide_False by done. cbn zeta. fold (retained df) (intermediate_text df).
  rewrite (rescan_reads_back _ _ Hback).
  rewrite invert_intermediate_text, scan_parse_lines.
  destruct (parse_lines_three_fields _ Hlines) as [recs ->].
  rewrite decide_True by done. by rewrite handle_raise_os.
Qed.

(** X14. An intermediate path that cannot be written stops the call before
    anything is written: the file system is left as it was and the call
    prints one line that the class of the error of [to_csv] decides: the
    catch-all diagnostic with the text of the error, or, for a
    [FileNotFoundError], the message that the input file was not found. *)
Theorem unwritable_intermediate_path fs input_file output_sma_file output_complexes_file
    text df :
  files fs !! input_file = Some text →
  read_csv text = inr df →
  has_required_columns df →
  output_sma_file ∈ unwritable fs →
  process_corum_data read_csv not_in_index
    input_file output_sma_file output_complexes_file fs =
    (Returned [if decide (os_class (to_csv_error fs output_sma_file) = IsFileNotFoundError)
               then not_found_message input_file
               else unexpected_message (os_text (to_csv_error fs output_sma_file))],
     fs).
Proof.
  intros Hin Hread Hcols Hw.
  rewrite process_cases, Hin, Hread, (select_human_ok _ _ Hcols).
  rewrite decide_True by done. by rewrite handle_raise_os.
Qed.

(** X15. The script prints its completion line whenever the call returns,
    after whatever the call printed, so also after a diagnostic: with the
    download missing, the output is the not-found message followed by
    "Processing complete. Check output files.". The script changes the file
    system exactly as the call does. *)
Theorem script_reports_completion fs :
  (∀ text e, read_csv text = inl e → issubclass (exn_cls e) Exception = true) →
  ∃ printed,
    (process_corum_data read_csv not_in_index script_input_file
       script_output_sma_file script_output_complexes_file fs).1 = Returned printed ∧
    script read_csv not_in_index fs =
      (Returned (printed ++ [completion_line])%list,
       (process_corum_data read_csv not_in_index script_input_file
          script_output_sma_file script_output_complexes_file fs).2) ∧
    (files fs !! script_input_file = None →
       script read_csv not_in_index fs =
         (Returned [not_found_message script_input_file; completion_line], fs)).
Proof.
  intros Hparser.
  destruct (run_returns read_csv not_in_index fs script_input_file
              script_output_sma_file script_output_complexes_file Hparser)
    as (printed & Hrun & _).
  exists printed. split; [done|]. unfold script.
  destruct (process_corum_data _ _ _ _ _ fs) as [o fs'] eqn:Hcall.
  cbn [fst snd] in *. subst o. split; [done|].
  intros Hin. rewrite process_cases, Hin in Hcall. by injection Hcall as <- <-.
Qed.

End failure_properties.

(** ** The further properties at the sample inputs *)

Lemma scan_appends_only_witness :
  ∃ d1,
    scan ∅ [raw_record ["CPX-1"; "Foo"; "P1;P2; P1"]] = inr d1 ∧
    scan d1 [raw_record ["CPX-3"; ""; "P0;P2;;"]] =
      inr {[ "P0" := ["CPX-3"]; "P1" := ["CPX-1"; "CPX-1"]; "P2" := ["CPX-1"; "CPX-3"] ]} ∧
    ∀ k ids, d1 !! k = Some ids →
      ∃ more,
        ({[ "P0" := ["CPX-3"]; "P1" := ["CPX-1"; "CPX-1"]; "P2" := ["CPX-1"; "CPX-3"] ]}
           : index) !! k = Some (ids ++ more)%list.
Proof.
  apply (scan_appends_only ∅ [raw_record ["CPX-1"; "Foo"; "P1;P2; P1"]]
           [raw_record ["CPX-3"; ""; "P0;P2;;"]]).
  vm_compute. reflexivity.
Defined.

Lemma index_keys_trimmed_witness : trimmed_token "P1".
Proof.
  apply (index_keys_trimmed (readlines (intermediate_text sample_frame))
           {[ "P0" := ["CPX-3"]; "P1" := ["CPX-1"; "CPX-1"]; "P2" := ["CPX-1"; "CPX-3"] ]}
           "P1" ["CPX-1"; "CPX-1"]).
  - vm_compute. reflexivity.
  - reflexivity.
Defined.

Lemma sorted_subunits_dom_witness :
  sorted_subunits {[ "P1" := ["CPX-1"]; "P0" := ["CPX-3"] ]} =
  sorted_subunits {[ "P0" := []; "P1" := ["CPX-7"; "CPX-8"] ]}.
Proof.
  apply (sorted_subunits_dom {[ "P1" := ["CPX-1"]; "P0" := ["CPX-3"] ]}
           {[ "P0" := []; "P1" := ["CPX-7"; "CPX-8"] ]}).
  vm_compute. reflexivity.
Defined.

Lemma intermediate_round_trip_witness :
  parse_lines (data_lines (intermediate_text quoted_name_frame)) =
    inr ((λ row, (complex_id_of quoted_name_frame row,
                  Str.rstrip (subunits_field_of quoted_name_frame row)))
           <$> retained quoted_name_frame).
Proof.
  apply (intermediate_round_trip quoted_name_frame). by_evaluation.
Defined.

Lemma complex_name_is_ignored_witness :
  ∃ d,
    invert (readlines (intermediate_text quoted_name_frame)) = inr d ∧
    invert (readlines (intermediate_text renamed_frame)) = inr d.
Proof.
  apply (complex_name_is_ignored quoted_name_frame renamed_frame).
  - by_evaluation.
  - by_evaluation.
  - reflexivity.
Defined.

Lemma missing_organism_column_witness :
  process_corum_data (parser_of no_organism_frame) sample_not_in_index
    "corum_humanComplexes.txt" "corum_humanComplexes_sma.txt"
    "Complexes_prot_found_in.txt" sample_fs =
    (Returned [unexpected_message "'organism'"], sample_fs).
Proof.
  apply (missing_organism_column (parser_of no_organism_frame) sample_not_in_index
           sample_fs "corum_humanComplexes.txt" "corum_humanComplexes_sma.txt"
           "Complexes_prot_found_in.txt" "(the download)" no_organism_frame).
  - reflexivity.
  - reflexivity.
  - by_evaluation.
Defined.

Lemma missing_output_column_witness :
  process_corum_data (parser_of no_name_frame) sample_not_in_index
    "corum_humanComplexes.txt" "corum_humanComplexes_sma.txt"
    "Complexes_prot_found_in.txt" sample_fs =
    (Returned [unexpected_message
                 (sample_not_in_index
                    (filter (λ name, name ∉ columns no_name_frame) sma_columns))],
     sample_fs).
Proof.
  apply (missing_output_column (parser_of no_name_frame) sample_not_in_index
           sample_fs "corum_humanComplexes.txt" "corum_humanComplexes_sma.txt"
           "Complexes_prot_found_in.txt" "(the download)" no_name_frame).
  - reflexivity.
  - reflexivity.
  - by_evaluation.
  - by_evaluation.
Defined.


Lemma no_human_rows_witness :
  sample_run mouse_frame =
    (Returned [],
     Filesystem
       (<["Complexes_prot_found_in.txt" := complexes_header]>
          (<["corum_humanComplexes_sma.txt" := sma_header]> (files sample_fs)))
       (unwritable sample_fs) (open_error sample_fs) (to_csv_error sample_fs)
       (locale_decode sample_fs)).
Proof.
  apply (no_human_rows (parser_of mouse_frame) sample_not_in_index sample_fs
           "corum_humanComplexes.txt" "corum_humanComplexes_sma.txt"
           "Complexes_prot_found_in.txt" "(the download)" mouse_frame).
  - reflexivity.
  - reflexivity.
  - by_evaluation.
  - by_evaluation.
  - apply sample_fs_writable.
  - apply sample_fs_writable.
Defined.

Lemma scan_fails_only_by_unpacking_witness :
  head (readlines (csv_text (Frame sma_columns
          (projection empty_subunits_frame <$> retained empty_subunits_frame)))) =
    Some sma_header ∧
  ∀ e, (process_body (parser_of empty_subunits_frame) sample_not_in_index
          "corum_humanComplexes.txt" "corum_humanComplexes_sma.txt"
          "Complexes_prot_found_in.txt" sample_fs).1 = inl e →
       (∃ n, n ≠ 3 ∧ e = unpack_error n) ∨
       ("Complexes_prot_found_in.txt" ∈ unwritable sample_fs ∧
        e = raise_os (open_error sample_fs "Complexes_prot_found_in.txt")).
Proof.
  apply (scan_fails_only_by_unpacking (parser_of empty_subunits_frame) sample_not_in_index
           sample_fs "corum_humanComplexes.txt" "corum_humanComplexes_sma.txt"
           "Complexes_prot_found_in.txt" "(the download)" empty_subunits_frame).
  - reflexivity.
  - reflexivity.
  - reflexivity.
  - apply sample_fs_writable.
  - by_evaluation.
Defined.

Lemma malformed_line_fails_witness :
  ∃ n,
    n ≠ 3 ∧
    sample_run empty_subunits_frame =
      (Returned [unexpected_message (exn_str (unpack_error n))],
       write_file "corum_humanComplexes_sma.txt" (intermediate_text empty_subunits_frame)
         sample_fs).
Proof.
  apply (malformed_line_fails (parser_of empty_subunits_frame) sample_not_in_index
           sample_fs "corum_humanComplexes.txt" "corum_humanComplexes_sma.txt"
           "Complexes_prot_found_in.txt" "(the download)" empty_subunits_frame
           (raw_record ["CPX-2"; "Bar"; ""])).
  - reflexivity.
  - reflexivity.
  - by_evaluation.
  - apply sample_fs_writable.
  - by_evaluation.
  - by_evaluation.
  - by_evaluation.
Defined.

Lemma unwritable_final_path_witness :
  process_corum_data (parser_of sample_frame) sample_not_in_index
    "corum_humanComplexes.txt" "corum_humanComplexes_sma.txt"
    "out/Complexes_prot_found_in.txt" no_final_directory_fs =
    (Returned [if decide (os_class (open_error no_final_directory_fs
                                      "out/Complexes_prot_found_in.txt") = IsFileNotFoundError)
               then not_found_message "corum_humanComplexes.txt"
               else unexpected_message
                      (os_text (open_error no_final_directory_fs
                                  "out/Complexes_prot_found_in.txt"))],
     write_file "corum_humanComplexes_sma.txt" (intermediate_text sample_frame)
       no_final_directory_fs).
Proof.
  apply (unwritable_final_path (parser_of sample_frame) sample_not_in_index
           no_final_directory_fs "corum_humanComplexes.txt" "corum_humanComplexes_sma.txt"
           "out/Complexes_prot_found_in.txt" "(the download)" sample_frame).
  - reflexivity.
  - reflexivity.
  - by_evaluation.
  - by_evaluation.
  - by_evaluation.
  - by_evaluation.
  - by_evaluation.
Defined.

(** The same with a final path that exists and is protected: the line is
    the catch-all diagnostic with the text of the [PermissionError]. *)
Example protected_final_path :
  process_corum_data (parser_of sample_frame) sample_not_in_index
    "corum_humanComplexes.txt" "corum_humanComplexes_sma.txt"
    "Complexes_prot_found_in.txt" locked_final_fs =
    (Returned ["An unexpected error occurred: [Errno 13] Permission denied: 'Complexes_prot_found_in.txt'"],
     write_file "corum_humanComplexes_sma.txt" (intermediate_text sample_frame)
       locked_final_fs).
Proof. reflexivity. Qed.

Lemma unwritable_intermediate_path_witness :
  process_corum_data (parser_of sample_frame) sample_not_in_index
    "corum_humanComplexes.txt" "out/corum_humanComplexes_sma.txt"
    "out/Complexes_prot_found_in.txt" no_directory_fs =
    (Returned [if decide (os_class (to_csv_error no_directory_fs
                                      "out/corum_humanComplexes_sma.txt") = IsFileNotFoundError)
               then not_found_message "corum_humanComplexes.txt"
               else unexpected_message
                      (os_text (to_csv_error no_directory_fs
                                  "out/corum_humanComplexes_sma.txt"))],
     no_directory_fs).
Proof.
  apply (unwritable_intermediate_path (parser_of sample_frame) sample_not_in_index
           no_directory_fs "corum_humanComplexes.txt" "out/corum_humanComplexes_sma.txt"
           "out/Complexes_prot_found_in.txt" "(the download)" sample_frame).
  - reflexivity.
  - reflexivity.
  - by_evaluation.
  - by_evaluation.
Defined.

(** The lines behind the two cases: pandas' own text for the missing
    directory, the text of the [PermissionError] for a protected path. *)
Example unwritable_intermediate_lines :
  (process_corum_data (parser_of sample_frame) sample_not_in_index
     "corum_humanComplexes.txt" "out/corum_humanComplexes_sma.txt"
     "out/Complexes_prot_found_in.txt" no_directory_fs).1 =
    Returned ["An unexpected error occurred: Cannot save file into a non-existent directory: 'out'"] ∧
  (process_corum_data (parser_of sample_frame) sample_not_in_index
     "corum_humanComplexes.txt" "corum_humanComplexes_sma.txt"
     "Complexes_prot_found_in.txt" locked_sma_fs).1 =
    Returned ["An unexpected error occurred: [Errno 13] Permission denied: 'corum_humanComplexes_sma.txt'"].
Proof. split; reflexivity. Qed.

Lemma script_reports_completion_witness :
  ∃ printed,
    (process_corum_data failing_parser sample_not_in_index script_input_file
       script_output_sma_file script_output_complexes_file sample_fs).1 = Returned printed ∧
    script failing_parser sample_not_in_index sample_fs =
      (Returned (printed ++ [completion_line])%list,
       (process_corum_data failing_parser sample_not_in_index script_input_file
          script_output_sma_file script_output_complexes_file sample_fs).2) ∧
    (files sample_fs !! script_input_file = None →
       script failing_parser sample_not_in_index sample_fs =
         (Returned [not_found_message script_input_file; completion_line], sample_fs)).
Proof.
  apply (script_reports_completion failing_parser sample_not_in_index sample_fs).
  intros text e [= <-]. reflexivity.
Defined.

(** The script on a directory without the download, and after a parse
    failure: the completion line follows the diagnostic. *)
Example script_after_failures :
  script (parser_of sample_frame) sample_not_in_index empty_fs =
    (Returned ["Error: Input file 'corum_humanComplexes.txt' not found.";
               "Processing complete. Check output files."], empty_fs) ∧
  script failing_parser sample_not_in_index sample_fs =
    (Returned ["Error: Could not parse input file 'corum_humanComplexes.txt'. Check file format.";
               "Processing complete. Check output files."], sample_fs).
Proof. split; reflexivity. Qed.
